(** * welcome42: the contact form and its mail relay

    A shallow embedding of the two programs of the repository:

    - [App] is the React component of [src/App.tsx]: the form state, the
      field validation, and the submission state machine;
    - [Relay] is the Deno edge function that receives the form, checks it
      again and forwards it to the mail provider.

    JavaScript strings are sequences of UTF-16 code units, and both
    [String.prototype.trim] and the regular expression class [\s] are
    defined on code units, so strings are modelled as lists of code units. *)

From Stdlib Require Import NArith String Ascii.
From stdpp Require Import gmap list.

Local Open Scope N_scope.

(** ** JavaScript strings *)

Module Js.

Abbreviation jsstring := (list N).

(** The bytes of a literal as it stands in the (UTF-8) source text. *)
Fixpoint bytes (s : string) : list N :=
  match s with
  | EmptyString => []
  | String a s' => N_of_ascii a :: bytes s'
  end.

(** One code point as UTF-16 code units. *)
Definition utf16 (cp : N) : jsstring :=
  if cp <? 0x10000 then [cp]
  else [0xD800 + N.shiftr (cp - 0x10000) 10;
        0xDC00 + N.land (cp - 0x10000) 0x3FF].

(** Decoding of UTF-8 text: [need] continuation bytes are still expected
    for the code point accumulated in [acc]. *)
Fixpoint decode (need : nat) (acc : N) (bs : list N) : jsstring :=
  match bs with
  | [] => []
  | b :: bs' =>
      match need with
      | O =>
          if b <? 0x80 then b :: decode 0 0 bs'
          else if b <? 0xE0 then decode 1 (N.land b 0x1F) bs'
          else if b <? 0xF0 then decode 2 (N.land b 0x0F) bs'
          else decode 3 (N.land b 0x07) bs'
      | S O =>
          utf16 (N.lor (N.shiftl acc 6) (N.land b 0x3F)) ++ decode 0 0 bs'
      | S n =>
          decode n (N.lor (N.shiftl acc 6) (N.land b 0x3F)) bs'
      end
  end.

(** The value of a string literal of the sources. *)
Definition str (s : string) : jsstring := decode 0 0 (bytes s).

(** WhiteSpace and LineTerminator of ECMAScript: the code units removed by
    [trim] and matched by [\s]. *)
Definition isWhiteSpace (c : N) : bool :=
  (c =? 0x09) || (c =? 0x0A) || (c =? 0x0B) || (c =? 0x0C) || (c =? 0x0D)
  || (c =? 0x20) || (c =? 0xA0) || (c =? 0x1680)
  || ((0x2000 <=? c) && (c <=? 0x200A))
  || (c =? 0x2028) || (c =? 0x2029) || (c =? 0x202F) || (c =? 0x205F)
  || (c =? 0x3000) || (c =? 0xFEFF).

Fixpoint trimStart (s : jsstring) : jsstring :=
  match s with
  | [] => []
  | c :: s' => if isWhiteSpace c then trimStart s' else s
  end.

Definition trimEnd (s : jsstring) : jsstring :=
  rev (trimStart (rev s)).

(** [s.trim()] *)
Definition trim (s : jsstring) : jsstring := trimEnd (trimStart s).

(** ToBoolean on a string: the empty string is the only falsy one. *)
Definition truthy (s : jsstring) : bool :=
  match s with [] => false | _ :: _ => true end.

(** ToBoolean on a value that is a string or [undefined]. *)
Definition truthy_opt (v : option jsstring) : bool :=
  match v with None => false | Some s => truthy s end.

(** [s.length] *)
Definition jslength (s : jsstring) : N := N.of_nat (length s).

(** [s.replace(/\n/g, by)]: every line feed replaced. *)
Fixpoint replace_newlines (by_ s : jsstring) : jsstring :=
  match s with
  | [] => []
  | c :: s' =>
      if c =? 0x0A then by_ ++ replace_newlines by_ s'
      else c :: replace_newlines by_ s'
  end.

End Js.

(** ** Regular expressions

    The only pattern of the sources, [/^[^\s@]+@[^\s@]+\.[^\s@]+$/], has no
    flags and is anchored at both ends, so that [test] is a match of the
    whole string. It is decided by Brzozowski derivatives. *)

Module Regex.
Import Js.

Inductive regex : Type :=
| Void : regex
| Eps : regex
| Class : (N -> bool) -> regex
| Cat : regex -> regex -> regex
| Alt : regex -> regex -> regex
| Star : regex -> regex.

(** [r+] *)
Definition Plus (r : regex) : regex := Cat r (Star r).

(** A literal character. *)
Definition Chr (c : N) : regex := Class (N.eqb c).

Fixpoint nullable (r : regex) : bool :=
  match r with
  | Void => false
  | Eps => true
  | Class _ => false
  | Cat r1 r2 => nullable r1 && nullable r2
  | Alt r1 r2 => nullable r1 || nullable r2
  | Star _ => true
  end.

Fixpoint deriv (c : N) (r : regex) : regex :=
  match r with
  | Void => Void
  | Eps => Void
  | Class p => if p c then Eps else Void
  | Cat r1 r2 =>
      if nullable r1
      then Alt (Cat (deriv c r1) r2) (deriv c r2)
      else Cat (deriv c r1) r2
  | Alt r1 r2 => Alt (deriv c r1) (deriv c r2)
  | Star r1 => Cat (deriv c r1) (Star r1)
  end.

Fixpoint matches (r : regex) (s : jsstring) : bool :=
  match s with
  | [] => nullable r
  | c :: s' => matches (deriv c r) s'
  end.

(** [re.test(s)] for a pattern anchored at both ends. *)
Definition test (r : regex) (s : jsstring) : bool := matches r s.

(** The words of a regular expression. *)
Inductive lang : regex -> jsstring -> Prop :=
| lang_eps : lang Eps []
| lang_class p c : p c = true -> lang (Class p) [c]
| lang_cat r1 r2 s1 s2 :
    lang r1 s1 -> lang r2 s2 -> lang (Cat r1 r2) (s1 ++ s2)
| lang_alt_l r1 r2 s : lang r1 s -> lang (Alt r1 r2) s
| lang_alt_r r1 r2 s : lang r2 s -> lang (Alt r1 r2) s
| lang_star_nil r : lang (Star r) []
| lang_star_cons r s1 s2 :
    lang r s1 -> lang (Star r) s2 -> lang (Star r) (s1 ++ s2).

(** [[^\s@]] *)
Definition notSpaceAt (c : N) : bool :=
  negb (isWhiteSpace c || (c =? 0x40)).

End Regex.

(** ** The form controller ([src/App.tsx]) *)

Module App.
Import Js Regex.

Record FormData : Type := mkFormData {
  name : jsstring;
  email : jsstring;
  subject : jsstring;
  message : jsstring
}.

(** The [name] attributes of the four inputs: the keys that
    [e.target.name] ranges over. *)
Inductive Field : Type := Name | Email | Subject | Message.

#[export] Instance Field_eq_dec : EqDecision Field.
Proof. solve_decision. Defined.

Definition Field_to_nat (f : Field) : nat :=
  match f with Name => 0 | Email => 1 | Subject => 2 | Message => 3 end%nat.

Definition Field_of_nat (n : nat) : option Field :=
  match n with
  | 0 => Some Name | 1 => Some Email | 2 => Some Subject | 3 => Some Message
  | _ => None
  end%nat.

#[export] Instance Field_countable : Countable Field.
Proof.
  apply (inj_countable Field_to_nat Field_of_nat).
  intros []; reflexivity.
Defined.

(** [formData[f]] *)
Definition get (f : Field) (d : FormData) : jsstring :=
  match f with
  | Name => name d
  | Email => email d
  | Subject => subject d
  | Message => message d
  end.

(** [{ ...d, [f]: v }] *)
Definition set (f : Field) (v : jsstring) (d : FormData) : FormData :=
  match f with
  | Name => mkFormData v (email d) (subject d) (message d)
  | Email => mkFormData (name d) v (subject d) (message d)
  | Subject => mkFormData (name d) (email d) v (message d)
  | Message => mkFormData (name d) (email d) (subject d) v
  end.

(** [FormErrors]: an object whose four members are optional. A key can be
    absent, or present with the value [undefined] ([None]). *)
Abbreviation FormErrors := (gmap Field (option jsstring)).

(** [errors[f]]: an absent key reads as [undefined]. *)
Definition read (errs : FormErrors) (f : Field) : option jsstring :=
  match errs !! f with
  | Some v => v
  | None => None
  end.

Inductive SubmissionStatus : Type := idle | loading | success | error.

(** The four [useState] cells of the component. *)
Record State : Type := mkState {
  formData : FormData;
  errors : FormErrors;
  status : SubmissionStatus;
  statusMessage : jsstring
}.

Definition emptyForm : FormData := mkFormData [] [] [] [].

(** The state of the first render. *)
Definition initial : State := mkState emptyForm ∅ idle [].

(** *** User-facing text *)

Definition nameRequired : jsstring := str "이름을 입력해주세요".
Definition emailRequired : jsstring := str "이메일을 입력해주세요".
Definition emailInvalid : jsstring := str "올바른 이메일 형식을 입력해주세요".
Definition subjectRequired : jsstring := str "제목을 입력해주세요".
Definition messageRequired : jsstring := str "메시지를 입력해주세요".
Definition messageTooShort : jsstring :=
  str "메시지는 최소 10자 이상 입력해주세요".
Definition successMessage : jsstring :=
  str "메시지가 성공적으로 전송되었습니다! 빠른 시일 내에 답변드리겠습니다.".
Definition failureMessage : jsstring :=
  str "메시지 전송에 실패했습니다. 잠시 후 다시 시도해주세요.".

(** *** Effects

    A handler is a closure over the state of the render it belongs to; what
    it does is call the state setters, the mail helper and the console. The
    world threaded through a handler is the store behind the [useState]
    cells and the log of these calls, in order. *)

Inductive Effect : Type :=
| PreventDefault
| SetFormData (d : FormData)
| SetErrors (e : FormErrors)
| SetStatus (s : SubmissionStatus)
| SetStatusMessage (m : jsstring)
| SendContactEmail (d : FormData)
| ConsoleError (label detail : jsstring).

Record World : Type := mkWorld {
  store : State;
  log : list Effect
}.

Definition M (A : Type) : Type := World -> A * World.

Definition ret {A} (a : A) : M A := fun w => (a, w).

Definition bind {A B} (m : M A) (k : A -> M B) : M B :=
  fun w => let (a, w') := m w in k a w'.

Declare Scope app_scope.
Delimit Scope app_scope with app.
Notation "x <- m ;; k" := (bind m (fun x => k))
  (at level 100, m at next level, right associativity) : app_scope.
Notation "m ;; k" := (bind m (fun _ => k))
  (at level 100, right associativity) : app_scope.
Local Open Scope app_scope.

Definition emit (e : Effect) : M unit :=
  fun w => (tt, mkWorld (store w) (log w ++ [e])).

Definition update (f : State -> State) : M unit :=
  fun w => (tt, mkWorld (f (store w)) (log w)).

(** [setFormData(f)] with an updater function of the previous value. *)
Definition setFormData (f : FormData -> FormData) : M unit :=
  fun w =>
    let d := f (formData (store w)) in
    (update (fun s => mkState d (errors s) (status s) (statusMessage s)) ;;
     emit (SetFormData d)) w.

Definition setErrors (f : FormErrors -> FormErrors) : M unit :=
  fun w =>
    let e := f (errors (store w)) in
    (update (fun s => mkState (formData s) e (status s) (statusMessage s)) ;;
     emit (SetErrors e)) w.

Definition setStatus (v : SubmissionStatus) : M unit :=
  update (fun s => mkState (formData s) (errors s) v (statusMessage s)) ;;
  emit (SetStatus v).

Definition setStatusMessage (m : jsstring) : M unit :=
  update (fun s => mkState (formData s) (errors s) (status s) m) ;;
  emit (SetStatusMessage m).

(** The world in which a handler of the render of [st] starts. *)
Definition start (st : State) : World := mkWorld st [].

(** The state left by a handler of the render of [st]. *)
Definition after {A} (st : State) (h : M A) : State :=
  store (snd (h (start st))).

(** The calls made by a handler of the render of [st]. *)
Definition calls {A} (st : State) (h : M A) : list Effect :=
  log (snd (h (start st))).

(** The values given to [setStatus], in order. *)
Definition statuses (l : list Effect) : list SubmissionStatus :=
  omap (fun e => match e with SetStatus s => Some s | _ => None end) l.

(** The forms handed to the mail helper, in order. *)
Definition sent (l : list Effect) : list FormData :=
  omap (fun e => match e with SendContactEmail d => Some d | _ => None end) l.

(** *** The component *)

Definition emailRegex : regex :=
  Cat (Plus (Class notSpaceAt))
    (Cat (Chr 0x40)
      (Cat (Plus (Class notSpaceAt))
        (Cat (Chr 0x2E) (Plus (Class notSpaceAt))))).

Definition validateEmail (email : jsstring) : bool :=
  test emailRegex email.

(** The result of awaiting a promise. *)
Inductive Settled (A : Type) : Type :=
| Fulfilled (value : A)
| Rejected (reason : jsstring).
Arguments Fulfilled {A} value.
Arguments Rejected {A} reason.

Section Component.

(** [sendContactEmail] of [./lib/supabase], a file that is not among the
    sources: what awaiting it gives for each form, whatever its reply is
    made of. *)
Variable Reply : Type.
Variable sendContactEmail : FormData -> Settled Reply.

(** The state of the render the handlers close over. *)
Variable st : State.

Definition validateForm : M bool :=
  let newErrors : FormErrors := ∅ in
  let newErrors :=
    if negb (truthy (trim (name (formData st))))
    then <[Name := Some nameRequired]> newErrors
    else newErrors in
  let newErrors :=
    if negb (truthy (trim (email (formData st))))
    then <[Email := Some emailRequired]> newErrors
    else if negb (validateEmail (email (formData st)))
    then <[Email := Some emailInvalid]> newErrors
    else newErrors in
  let newErrors :=
    if negb (truthy (trim (subject (formData st))))
    then <[Subject := Some subjectRequired]> newErrors
    else newErrors in
  let newErrors :=
    if negb (truthy (trim (message (formData st))))
    then <[Message := Some messageRequired]> newErrors
    else if jslength (trim (message (formData st))) <? 10
    then <[Message := Some messageTooShort]> newErrors
    else newErrors in
  setErrors (fun _ => newErrors) ;;
  ret (size newErrors =? 0)%nat.

Definition handleInputChange (name : Field) (value : jsstring) : M unit :=
  setFormData (fun prev => set name value prev) ;;
  if truthy_opt (read (errors st) name)
  then setErrors (fun prev => <[name := None]> prev)
  else ret tt.

Definition handleSubmit : M unit :=
  emit PreventDefault ;;
  ok <- validateForm ;;
  if negb ok then ret tt
  else
    setStatus loading ;;
    emit (SendContactEmail (formData st)) ;;
    match sendContactEmail (formData st) with
    | Fulfilled _ =>
        setStatus success ;;
        setStatusMessage successMessage ;;
        setFormData (fun _ => mkFormData [] [] [] [])
    | Rejected reason =>
        emit (ConsoleError (str "Email sending failed:") reason) ;;
        setStatus error ;;
        setStatusMessage failureMessage
    end.

Definition resetStatus : M unit :=
  setStatus idle ;;
  setStatusMessage [].

End Component.

End App.

(** ** The submission relay (the edge function behind [send-email]) *)

Module Relay.
Import Js Regex.

(** A JSON value of the bodies the handler writes. *)
Inductive Json : Type :=
| JBool (b : bool)
| JStr (s : jsstring).

(** [JSON.stringify] of an object literal, as the document it denotes: the
    members in order, a member whose value is [undefined] left out. *)
Definition stringify (members : list (jsstring * option Json))
  : list (jsstring * Json) :=
  omap (fun kv => match kv.2 with
                  | Some v => Some (kv.1, v)
                  | None => None
                  end) members.

(** The parsed body, read at the type the handler declares for it: every
    member is a string, and a member the document lacks is [undefined]. *)
Module EmailRequest.
Record t : Type := mk {
  name : option jsstring;
  email : option jsstring;
  subject : option jsstring;
  message : option jsstring
}.
End EmailRequest.

Module Request.
Record t : Type := mk {
  method : jsstring;
  (** what [await req.json()] gives; [None] when it rejects *)
  json : option EmailRequest.t
}.
End Request.

Module Response.
Record t : Type := mk {
  status : N;
  headers : gmap jsstring jsstring;
  (** [None] for the [null] body *)
  body : option (list (jsstring * Json))
}.
End Response.

(** The object serialised into the body of the provider call. *)
Module Payload.
Record t : Type := mk {
  from : jsstring;
  to : list jsstring;
  subject : jsstring;
  html : jsstring
}.
End Payload.

Module Init.
Record t : Type := mk {
  method : jsstring;
  headers : gmap jsstring jsstring;
  body : Payload.t
}.
End Init.

(** The members of the provider's JSON that the handler reads. *)
Module ProviderJson.
Record t : Type := mk {
  id : option jsstring;
  message : option jsstring
}.
End ProviderJson.

(** The provider's response. *)
Module Fetched.
Record t : Type := mk {
  ok : bool;
  (** what [await response.json()] gives; [None] when it rejects *)
  json : option ProviderJson.t
}.
End Fetched.

Inductive Effect : Type :=
| Fetch (url : jsstring) (init : Init.t)
| ConsoleError (label : jsstring) (data : option ProviderJson.t)
| ConsoleLog (label : jsstring) (data : option ProviderJson.t).

(** *** Early return and exceptions

    A statement completes normally, returns from the handler, or throws;
    the calls made so far are logged. *)

Inductive Completion (A : Type) : Type :=
| Normal (a : A)
| Return (r : Response.t)
| Throw.
Arguments Normal {A} a.
Arguments Return {A} r.
Arguments Throw {A}.

Definition X (A : Type) : Type := list Effect -> Completion A * list Effect.

Definition ret {A} (a : A) : X A := fun l => (Normal a, l).

Definition bind {A B} (m : X A) (k : A -> X B) : X B :=
  fun l =>
    match m l with
    | (Normal a, l') => k a l'
    | (Return r, l') => (Return r, l')
    | (Throw, l') => (Throw, l')
    end.

Declare Scope relay_scope.
Delimit Scope relay_scope with relay.
Notation "x <- m ;; k" := (bind m (fun x => k))
  (at level 100, m at next level, right associativity) : relay_scope.
Notation "m ;; k" := (bind m (fun _ => k))
  (at level 100, right associativity) : relay_scope.
Local Open Scope relay_scope.

Definition return_ {A} (r : Response.t) : X A := fun l => (Return r, l).

Definition throw {A} : X A := fun l => (Throw, l).

Definition emit (e : Effect) : X unit := fun l => (Normal tt, l ++ [e]).

(** [await p] for a promise that settles with [v], or rejects. *)
Definition await {A} (p : option A) : X A :=
  match p with
  | Some v => ret v
  | None => throw
  end.

(** The receiver of a method call: a call on [undefined] throws. *)
Definition receiver {A} (v : option A) : X A :=
  match v with
  | Some o => ret o
  | None => throw
  end.

(** [if (c) { m }] *)
Definition when (c : bool) (m : X unit) : X unit :=
  if c then m else ret tt.

(** ToString of a string or [undefined], as in a template literal. *)
Definition toString (v : option jsstring) : jsstring :=
  match v with
  | Some s => s
  | None => str "undefined"
  end.

(** [a || b] on strings *)
Definition or_else (a : option jsstring) (b : jsstring) : jsstring :=
  match a with
  | Some s => if truthy s then s else b
  | None => b
  end.

Definition quot : jsstring := [0x22].
Definition nl : jsstring := [0x0A].

(** The fixed parts of the HTML body, between the interpolated values. *)
Definition htmlHead : jsstring :=
  concat [
    str "@@"; nl;
    str "        <div style="; quot; str "font-family: Arial, sans-serif; max-width: 600px; margin: 0 auto; padding: 20px;"; quot; str ">"; nl;
    str "          <h2 style="; quot; str "color: #333; border-bottom: 2px solid #e1e5e9; padding-bottom: 10px;"; quot; str ">"; nl;
    str "            새로운 문의가 접수되었습니다"; nl;
    str "          </h2>"; nl;
    str "          "; nl;
    str "          <div style="; quot; str "background-color: #f8f9fa; padding: 20px; border-radius: 8px; margin: 20px 0;"; quot; str ">"; nl;
    str "            <h3 style="; quot; str "color: #495057; margin-top: 0;"; quot; str ">문의자 정보</h3>"; nl;
    str "            <p style="; quot; str "margin: 8px 0;"; quot; str "><strong>이름:</strong> "
  ].

Definition htmlAfterName : jsstring :=
  concat [
    str "</p>"; nl;
    str "            <p style="; quot; str "margin: 8px 0;"; quot; str "><strong>이메일:</strong> "
  ].

Definition htmlAfterEmail : jsstring :=
  concat [
    str "</p>"; nl;
    str "            <p style="; quot; str "margin: 8px 0;"; quot; str "><strong>제목:</strong> "
  ].

Definition htmlAfterSubject : jsstring :=
  concat [
    str "</p>"; nl;
    str "          </div>"; nl;
    str "          "; nl;
    str "          <div style="; quot; str "background-color: #ffffff; padding: 20px; border: 1px solid #e1e5e9; border-radius: 8px;"; quot; str ">"; nl;
    str "            <h3 style="; quot; str "color: #495057; margin-top: 0;"; quot; str ">문의 내용</h3>"; nl;
    str "            <div style="; quot; str "line-height: 1.6; color: #333;"; quot; str ">"; nl;
    str "              "
  ].

Definition htmlTail : jsstring :=
  concat [
    nl;
    str "            </div>"; nl;
    str "          </div>"; nl;
    str "          "; nl;
    str "          <div style="; quot; str "margin-top: 30px; padding-top: 20px; border-top: 1px solid #e1e5e9; color: #6c757d; font-size: 14px;"; quot; str ">"; nl;
    str "            <p>이 메일은 웹사이트 문의 폼을 통해 자동으로 발송되었습니다.</p>"; nl;
    str "            <p>답변을 원하시면 위의 이메일 주소로 직접 회신해주세요.</p>"; nl;
    str "          </div>"; nl;
    str "        </div>"; nl;
    str "      "
  ].

Definition emailRegex : regex :=
  Cat (Plus (Class notSpaceAt))
    (Cat (Chr 0x40)
      (Cat (Plus (Class notSpaceAt))
        (Cat (Chr 0x2E) (Plus (Class notSpaceAt))))).

Definition json_type : jsstring * jsstring :=
  (str "Content-Type", str "application/json").

Definition resendUrl : jsstring := str "https://api.resend.com/emails".

(** The second argument of [fetch]. *)
Definition fetchInit (resendApiKey : option jsstring) (payload : Payload.t)
  : Init.t :=
  Init.mk (str "POST")
    (<[str "Content-Type" := str "application/json"]>
       {[str "Authorization" := str "Bearer " ++ toString resendApiKey]})
    payload.

(** All four members of a body present and not empty: the condition under
    which the handler goes past its check of the required fields. *)
Definition complete (b : EmailRequest.t) : bool :=
  truthy_opt (EmailRequest.name b) && truthy_opt (EmailRequest.email b)
  && truthy_opt (EmailRequest.subject b)
  && truthy_opt (EmailRequest.message b).

Section Handler.

(** [corsHeaders] of [../_shared/cors.ts], a file that is not among the
    sources: any map of headers. *)
Variable corsHeaders : gmap jsstring jsstring.

(** The environment variables, read with [Deno.env.get]. *)
Variable env : gmap jsstring jsstring.

(** The provider: what awaiting [fetch] gives, [None] when it rejects. *)
Variable fetch : jsstring -> Init.t -> option Fetched.t.

(** [new Response(JSON.stringify(o), { status, headers: { ...corsHeaders,
    'Content-Type': 'application/json' } })] *)
Definition json_response (status : N)
    (members : list (jsstring * option Json)) : Response.t :=
  Response.mk status (<[json_type.1 := json_type.2]> corsHeaders)
    (Some (stringify members)).

Definition emailPayload (name email subject : option jsstring)
    (message : jsstring) : Payload.t :=
  Payload.mk
    (str "mastery0621@gmail.com")
    [str "mastery0621@gmail.com"]
    (str "새로운 문의: " ++ toString subject)
    (htmlHead ++ toString name
     ++ htmlAfterName ++ toString email
     ++ htmlAfterEmail ++ toString subject
     ++ htmlAfterSubject ++ replace_newlines (str "<br>") message
     ++ htmlTail).

(** The [try] block. *)
Definition attempt (req : Request.t) : X Response.t :=
  when (bool_decide (Request.method req = str "OPTIONS"))
    (return_ (Response.mk 200 corsHeaders None)) ;;
  when (negb (bool_decide (Request.method req = str "POST")))
    (return_ (json_response 405
       [(str "error", Some (JStr (str "Method not allowed")))])) ;;
  parsed <- await (Request.json req) ;;
  let name := EmailRequest.name parsed in
  let email := EmailRequest.email parsed in
  let subject := EmailRequest.subject parsed in
  let message := EmailRequest.message parsed in
  when (negb (truthy_opt name) || negb (truthy_opt email)
        || negb (truthy_opt subject) || negb (truthy_opt message))
    (return_ (json_response 400
       [(str "error", Some (JStr (str "All fields are required")))])) ;;
  when (negb (test emailRegex (toString email)))
    (return_ (json_response 400
       [(str "error", Some (JStr (str "Invalid email format")))])) ;;
  let resendApiKey := env !! str "RESEND_API_KEY" in
  when (negb (truthy_opt resendApiKey))
    (emit (ConsoleError
             (str "RESEND_API_KEY not found in environment variables")
             None) ;;
     return_ (json_response 500
       [(str "error", Some (JStr (str "Email service not configured")))])) ;;
  text <- receiver message ;;
  let payload := emailPayload name email subject text in
  let init := fetchInit resendApiKey payload in
  emit (Fetch resendUrl init) ;;
  response <- await (fetch resendUrl init) ;;
  when (negb (Fetched.ok response))
    (errorData <- await (Fetched.json response) ;;
     emit (ConsoleError (str "Resend API error:") (Some errorData)) ;;
     return_ (json_response 500
       [(str "error", Some (JStr (str "Failed to send email")));
        (str "details",
         Some (JStr (or_else (ProviderJson.message errorData)
                             (str "Unknown error"))))])) ;;
  result <- await (Fetched.json response) ;;
  emit (ConsoleLog (str "Email sent successfully:") (Some result)) ;;
  return_ (json_response 200
    [(str "success", Some (JBool true));
     (str "message", Some (JStr (str "메일이 성공적으로 전송되었습니다!")));
     (str "id", JStr <$> ProviderJson.id result)]).

(** The response of the [catch] block. *)
Definition internalError : Response.t :=
  json_response 500
    [(str "error", Some (JStr (str "Internal server error")));
     (str "message",
      Some (JStr (str "메일 전송 중 오류가 발생했습니다.")))].

(** The handler given to [Deno.serve]: the response, and the calls made. *)
Definition serve (req : Request.t) : Response.t * list Effect :=
  match attempt req [] with
  | (Normal r, l) => (r, l)
  | (Return r, l) => (r, l)
  | (Throw, l) =>
      (internalError,
       l ++ [ConsoleError (str "Error sending email:") None])
  end.

(** What is handed to the provider for a body whose message is [text]. *)
Definition forwarded (b : EmailRequest.t) (text : jsstring) : Init.t :=
  fetchInit (env !! str "RESEND_API_KEY")
    (emailPayload (EmailRequest.name b) (EmailRequest.email b)
       (EmailRequest.subject b) text).

(** The provider calls among the calls made. *)
Definition fetched (l : list Effect) : list (jsstring * Init.t) :=
  omap (fun e => match e with
                 | Fetch url init => Some (url, init)
                 | _ => None
                 end) l.

End Handler.

End Relay.

(** ** The call from the form to the relay *)

Module Client.
Import Js.

(** The JSON body [{name, email, subject, message}] carrying a form. *)
Definition body_of (d : App.FormData) : Relay.EmailRequest.t :=
  Relay.EmailRequest.mk
    (Some (App.name d)) (Some (App.email d))
    (Some (App.subject d)) (Some (App.message d)).

Definition request_of (d : App.FormData) : Relay.Request.t :=
  Relay.Request.mk (str "POST") (Some (body_of d)).

(** A response with a success status. *)
Definition succeeded (r : Relay.Response.t) : bool :=
  (200 <=? Relay.Response.status r) && (Relay.Response.status r <? 300).

(** Modelled from the spec: [sendContactEmail] of [./lib/supabase], which
    is not among the sources. It invokes the relay with the form it is
    given (4.1 (c)); a network failure, a non-success response or a thrown
    error is a failure (4.1 (e)). [network] is what the transport gives
    for a request, [None] when it fails. *)
Definition sendContactEmail
    (network : Relay.Request.t -> option Relay.Response.t)
    (d : App.FormData) : App.Settled Relay.Response.t :=
  match network (request_of d) with
  | None => App.Rejected (str "Failed to fetch")
  | Some r =>
      if succeeded r then App.Fulfilled r
      else App.Rejected (str "Edge Function returned a non-2xx status code")
  end.

(** The network when the relay is up: every request is answered by the
    handler. *)
Definition online (corsHeaders env : gmap jsstring jsstring)
    (fetch : jsstring -> Relay.Init.t -> option Relay.Fetched.t)
    (req : Relay.Request.t) : option Relay.Response.t :=
  Some (Relay.serve corsHeaders env fetch req).1.

End Client.

(** ** The rules of the form, as the specification words them *)

Module Rules.
Import Js App.

Inductive ErrorKind : Type :=
| RequiredFieldError
| InvalidFormatError
| TooShortError.

(** The violation of the rule of field [f] by the value [v], if any. *)
Definition violation (f : Field) (v : jsstring) : option ErrorKind :=
  match f with
  | Name | Subject =>
      if truthy (trim v) then None else Some RequiredFieldError
  | Email =>
      if negb (truthy (trim v)) then Some RequiredFieldError
      else if validateEmail v then None
      else Some InvalidFormatError
  | Message =>
      if negb (truthy (trim v)) then Some RequiredFieldError
      else if (length (trim v) <? 10)%nat then Some TooShortError
      else None
  end.

(** The text shown for a violation. *)
Definition text (f : Field) (k : ErrorKind) : jsstring :=
  match f, k with
  | Name, _ => nameRequired
  | Subject, _ => subjectRequired
  | Email, RequiredFieldError => emailRequired
  | Email, _ => emailInvalid
  | Message, RequiredFieldError => messageRequired
  | Message, _ => messageTooShort
  end.

(** The error mapping the rules prescribe for a form: one entry for each
    field in violation, none for the others. *)
Definition prescribed (d : FormData) (f : Field) : option (option jsstring) :=
  match violation f (get f d) with
  | Some k => Some (Some (text f k))
  | None => None
  end.

(** A form that passes the four rules. *)
Definition valid (d : FormData) : Prop :=
  forall f, violation f (get f d) = None.

(** One or more code units, none of them a space or an [@]. *)
Definition part (s : jsstring) : Prop :=
  s <> [] /\ Forall (fun c => Regex.notSpaceAt c = true) s.

(** The shape of an address: local part, [@], domain, [.], rest. *)
Definition shaped (s : jsstring) : Prop :=
  exists a b c, s = a ++ 0x40 :: b ++ 0x2E :: c /\ part a /\ part b /\ part c.

(** Only whitespace, and at least one. *)
Definition blank (s : jsstring) : Prop :=
  s <> [] /\ Forall (fun c => isWhiteSpace c = true) s.

End Rules.

(** ** Sample inputs *)

Module Samples.
Import Js.

(** A message of ten characters between spaces. *)
Definition ten_digits : App.State :=
  App.mkState (App.mkFormData [] [] [] (str "  0123456789 ")) ∅ App.idle [].

(** A render with two errors on display. *)
Definition two_errors : App.State :=
  App.mkState (App.mkFormData [] [] (str "hello") [])
    (<[App.Name := Some App.nameRequired]>
       {[ App.Email := Some App.emailRequired ]})
    App.idle [].

(** A form that passes the four rules. *)
Definition kim : App.FormData :=
  App.mkFormData (str "Kim") (str "kim@example.com") (str "Hello")
    (str "0123456789").

Definition filled : App.State := App.mkState kim ∅ App.idle [].

(** The same form with the name left empty. *)
Definition unnamed : App.State :=
  App.mkState (App.set App.Name [] kim) ∅ App.idle [].

(** The same form with two spaces for a name. *)
Definition spaces : jsstring := str "  ".

Definition cors : gmap jsstring jsstring :=
  {[ str "Access-Control-Allow-Origin" := str "*" ]}.

Definition configured : gmap jsstring jsstring :=
  {[ str "RESEND_API_KEY" := str "re_test" ]}.

(** A provider that accepts every message. *)
Definition accepting (url : jsstring) (init : Relay.Init.t)
  : option Relay.Fetched.t :=
  Some (Relay.Fetched.mk true
          (Some (Relay.ProviderJson.mk (Some (str "49a3999c")) None))).


Definition post (d : App.FormData) : Relay.Request.t :=
  Relay.Request.mk (str "POST") (Some (Client.body_of d)).

End Samples.

(** ** What the component renders

    The parts of the JSX that depend on the state: for each input its value,
    the border class chosen by its error and the paragraph shown under it;
    the submit button; the two banners. The fixed markup around them is not
    represented. *)

Module Render.
Import Js.

#[export] Instance SubmissionStatus_eq_dec : EqDecision App.SubmissionStatus.
Proof. solve_decision. Defined.

Record Input : Type := mkInput {
  value : jsstring;
  (** the class picked by [errors.f ? 'border-red-400' : 'border-white/30'] *)
  border : jsstring;
  (** the text of the paragraph of [errors.f && (...)], when there is one *)
  alert : option jsstring
}.

Record Banner : Type := mkBanner {
  (** [{statusMessage}] *)
  text : jsstring;
  (** the label of the button bound to [resetStatus] *)
  dismiss : jsstring
}.

Record View : Type := mkView {
  nameInput : Input;
  emailInput : Input;
  subjectInput : Input;
  messageInput : Input;
  disabled : bool;
  label : jsstring;
  successBanner : option Banner;
  errorBanner : option Banner
}.

(** [c && (x)] in JSX, for a condition that is a string or [undefined]:
    a falsy condition renders nothing. *)
Definition shown (c : option jsstring) : option jsstring :=
  if truthy_opt c then c else None.

Definition renderInput (st : App.State) (f : App.Field) : Input :=
  mkInput
    (App.get f (App.formData st))
    (if truthy_opt (App.read (App.errors st) f)
     then str "border-red-400" else str "border-white/30")
    (shown (App.read (App.errors st) f)).

Definition render (st : App.State) : View :=
  mkView
    (renderInput st App.Name)
    (renderInput st App.Email)
    (renderInput st App.Subject)
    (renderInput st App.Message)
    (bool_decide (App.status st = App.loading))
    (if bool_decide (App.status st = App.loading)
     then str "전송 중..." else str "메시지 전송하기")
    (if bool_decide (App.status st = App.success)
     then Some (mkBanner (App.statusMessage st) (str "새 메시지 작성하기"))
     else None)
    (if bool_decide (App.status st = App.error)
     then Some (mkBanner (App.statusMessage st) (str "다시 시도하기"))
     else None).

(** The input of a field in a view. *)
Definition inputOf (v : View) (f : App.Field) : Input :=
  match f with
  | App.Name => nameInput v
  | App.Email => emailInput v
  | App.Subject => subjectInput v
  | App.Message => messageInput v
  end.

End Render.

(** ** Sessions

    What the user can do to the rendered form: type into a field, submit
    (the mail helper then settles one way or the other), or dismiss a
    banner. Each handler runs in the render of the current state. *)

Module Session.
Import Js.

Inductive Action : Type :=
| Change (f : App.Field) (v : jsstring)
| Submit (outcome : App.Settled unit)
| Reset.

Definition dispatch (st : App.State) (a : Action) : App.State :=
  match a with
  | Change f v => App.after st (App.handleInputChange st f v)
  | Submit outcome =>
      App.after st (App.handleSubmit unit (fun _ => outcome) st)
  | Reset => App.after st App.resetStatus
  end.

Definition run (st : App.State) (l : list Action) : App.State :=
  fold_left dispatch l st.

(** The states in which the component can be found at rest: every text in
    the errors is one of the texts of its own field, and the status message
    is the one that goes with the status. *)
Definition coherent (st : App.State) : Prop :=
  (forall f v, App.errors st !! f = Some (Some v) ->
               exists k, v = Rules.text f k)
  /\ match App.status st with
     | App.idle => App.statusMessage st = []
     | App.loading => False
     | App.success => App.statusMessage st = App.successMessage
     | App.error => App.statusMessage st = App.failureMessage
     end.

End Session.

(** ** More sample inputs *)

Module Cases.
Import Js.

(** An address with a space in front. *)
Definition padded_address : App.State :=
  App.mkState
    (App.mkFormData (str "Kim") (str " kim@example.com") (str "Hello")
       (str "0123456789"))
    ∅ App.idle [].

(** A provider that refuses, with and without a reason. *)
Definition refusing (reason : option jsstring) (url : jsstring)
    (init : Relay.Init.t) : option Relay.Fetched.t :=
  Some (Relay.Fetched.mk false (Some (Relay.ProviderJson.mk None reason))).

(** A provider that accepts and gives no identifier. *)
Definition anonymous (url : jsstring) (init : Relay.Init.t)
  : option Relay.Fetched.t :=
  Some (Relay.Fetched.mk true (Some (Relay.ProviderJson.mk None None))).

(** A provider that cannot be reached. *)
Definition unreachable (url : jsstring) (init : Relay.Init.t)
  : option Relay.Fetched.t := None.

(** A POST whose body is not JSON. *)
Definition garbage : Relay.Request.t := Relay.Request.mk (str "POST") None.

Definition get : Relay.Request.t := Relay.Request.mk (str "GET") None.

End Cases.

(** * Properties *)

(** ** Strings *)

Module JsFacts.
Import Js.

Lemma trimStart_blank (s : jsstring) :
  Forall (fun c => isWhiteSpace c = true) s -> trimStart s = [].
Proof.
  induction 1 as [|c s Hc _ IH]; simpl; [reflexivity|].
  rewrite Hc. exact IH.
Qed.

Lemma trim_blank (s : jsstring) :
  Forall (fun c => isWhiteSpace c = true) s -> trim s = [].
Proof.
  intros H. unfold trim. rewrite (trimStart_blank s H). reflexivity.
Qed.

(** What is left by [trim] was there before: a string that trims to
    something is not empty. *)
Lemma trim_truthy (s : jsstring) :
  truthy (trim s) = true -> truthy s = true.
Proof.
  destruct s as [|c s]; [discriminate | reflexivity].
Qed.

Lemma jslength_lt (s : jsstring) (n : nat) :
  (jslength s <? N.of_nat n) = (length s <? n)%nat.
Proof.
  unfold jslength.
  destruct (N.ltb_spec (N.of_nat (length s)) (N.of_nat n));
    destruct (Nat.ltb_spec (length s) n); try reflexivity; lia.
Qed.

End JsFacts.

(** ** The matcher decides the language *)

Module RegexFacts.
Import Js Regex.

Lemma app_nil_both {A} (l1 l2 : list A) :
  l1 ++ l2 = [] -> l1 = [] /\ l2 = [].
Proof. destruct l1; [simpl; auto | discriminate]. Qed.

Lemma nullable_sound (r : regex) : nullable r = true -> lang r [].
Proof.
  induction r as [| |p|r1 IH1 r2 IH2|r1 IH1 r2 IH2|r1 IH1]; simpl; intros H;
    try discriminate.
  - constructor.
  - apply andb_prop in H as [H1 H2].
    change (@nil N) with (@nil N ++ []). constructor; auto.
  - apply orb_prop in H as [H|H].
    + apply lang_alt_l; auto.
    + apply lang_alt_r; auto.
  - constructor.
Qed.

Lemma nullable_complete (r : regex) (s : jsstring) :
  lang r s -> s = [] -> nullable r = true.
Proof.
  induction 1 as [|p c Hc|r1 r2 s1 s2 _ IH1 _ IH2|r1 r2 s _ IH|r1 r2 s _ IH
                 |r|r s1 s2 _ _ _ _]; simpl; intros E; try reflexivity.
  - discriminate.
  - apply app_nil_both in E as [E1 E2]. rewrite IH1, IH2; auto.
  - rewrite IH; auto.
  - rewrite IH; auto using orb_true_r.
Qed.

Lemma deriv_sound (c : N) (r : regex) :
  forall s, lang (deriv c r) s -> lang r (c :: s).
Proof.
  induction r as [| |p|r1 IH1 r2 IH2|r1 IH1 r2 IH2|r1 IH1]; simpl; intros s H.
  - inversion H.
  - inversion H.
  - destruct (p c) eqn:Hp; inversion H; subst. constructor; exact Hp.
  - destruct (nullable r1) eqn:Hn.
    + inversion H as [| | |? ? ? Hl|? ? ? Hr| |]; subst.
      * inversion Hl as [| |? ? s1 s2 H1 H2| | | |]; subst.
        change (c :: s1 ++ s2) with ((c :: s1) ++ s2).
        constructor; auto.
      * change (c :: s) with ([] ++ c :: s).
        constructor; auto using nullable_sound.
    + inversion H as [| |? ? s1 s2 H1 H2| | | |]; subst.
      change (c :: s1 ++ s2) with ((c :: s1) ++ s2).
      constructor; auto.
  - inversion H; subst.
    + apply lang_alt_l; auto.
    + apply lang_alt_r; auto.
  - inversion H as [| |? ? s1 s2 H1 H2| | | |]; subst.
    change (c :: s1 ++ s2) with ((c :: s1) ++ s2).
    constructor; auto.
Qed.

Lemma deriv_complete (c : N) (r : regex) (w : jsstring) :
  lang r w -> forall s, w = c :: s -> lang (deriv c r) s.
Proof.
  induction 1 as [|p c0 Hc|r1 r2 s1 s2 H1 IH1 H2 IH2|r1 r2 w _ IH|r1 r2 w _ IH
                 |r|r s1 s2 H1 IH1 H2 IH2]; intros s E; simpl.
  - discriminate.
  - injection E as -> <-. rewrite Hc. constructor.
  - destruct s1 as [|c1 s1]; simpl in E.
    + rewrite (nullable_complete r1 [] H1 eq_refl).
      apply lang_alt_r. auto.
    + injection E as -> <-.
      destruct (nullable r1).
      * apply lang_alt_l. constructor; auto.
      * constructor; auto.
  - apply lang_alt_l; auto.
  - apply lang_alt_r; auto.
  - discriminate.
  - destruct s1 as [|c1 s1]; simpl in E.
    + apply (IH2 s E).
    + injection E as -> <-. constructor; auto.
Qed.

Lemma matches_lang (s : jsstring) :
  forall r, matches r s = true <-> lang r s.
Proof.
  induction s as [|c s IH]; intros r; simpl.
  - split; [apply nullable_sound | intros H; eapply nullable_complete; eauto].
  - rewrite IH. split.
    + apply deriv_sound.
    + intros H. eapply deriv_complete; eauto.
Qed.

Lemma test_lang (r : regex) (s : jsstring) :
  test r s = true <-> lang r s.
Proof. apply matches_lang. Qed.

End RegexFacts.

(** ** The shape of the addresses the pattern accepts *)

Module EmailFacts.
Import Js Regex RegexFacts Rules.


Lemma lang_star_class (p : N -> bool) (s : jsstring) :
  lang (Star (Class p)) s <-> Forall (fun c => p c = true) s.
Proof.
  split.
  - intros H. remember (Star (Class p)) as r eqn:Er.
    induction H as [| | | | | |r s1 s2 H1 _ H2 IH2]; try discriminate.
    + constructor.
    + injection Er as ->. inversion H1; subst.
      constructor; auto.
  - induction 1 as [|c s Hc _ IH].
    + constructor.
    + change (c :: s) with ([c] ++ s).
      constructor; [constructor; exact Hc | exact IH].
Qed.

Lemma lang_plus_class (p : N -> bool) (s : jsstring) :
  lang (Plus (Class p)) s <-> s <> [] /\ Forall (fun c => p c = true) s.
Proof.
  unfold Plus. split.
  - intros H. inversion H as [| |? ? s1 s2 H1 H2| | | |]; subst.
    inversion H1; subst. apply lang_star_class in H2.
    split; [discriminate | constructor; auto].
  - intros [Hne Hall]. destruct Hall as [|c s Hc Hs]; [contradiction|].
    change (c :: s) with ([c] ++ s).
    constructor; [constructor; exact Hc | apply lang_star_class; exact Hs].
Qed.

Lemma lang_chr (c : N) (s : jsstring) : lang (Chr c) s <-> s = [c].
Proof.
  unfold Chr. split.
  - intros H. inversion H as [|? c' Hc| | | | |]; subst.
    apply N.eqb_eq in Hc. congruence.
  - intros ->. constructor. apply N.eqb_refl.
Qed.

Lemma lang_pattern (s : jsstring) : lang App.emailRegex s <-> shaped s.
Proof.
  unfold App.emailRegex, shaped, part. split.
  - intros H.
    inversion H as [| |? ? a s1 Ha H1| | | |]; subst.
    inversion H1 as [| |? ? at_ s2 Hat H2| | | |]; subst.
    inversion H2 as [| |? ? b s3 Hb H3| | | |]; subst.
    inversion H3 as [| |? ? dot c Hdot Hc| | | |]; subst.
    apply lang_chr in Hat, Hdot. subst.
    apply lang_plus_class in Ha, Hb, Hc.
    exists a, b, c. simpl. auto.
  - intros (a & b & c & -> & Ha & Hb & Hc).
    apply lang_plus_class in Ha, Hb, Hc.
    constructor; [exact Ha|].
    change (0x40 :: b ++ 0x2E :: c) with ([0x40] ++ b ++ [0x2E] ++ c).
    constructor; [apply lang_chr; reflexivity|].
    constructor; [exact Hb|].
    constructor; [apply lang_chr; reflexivity | exact Hc].
Qed.

Lemma test_pattern (s : jsstring) : test App.emailRegex s = true <-> shaped s.
Proof. rewrite test_lang. apply lang_pattern. Qed.

Lemma part_no_at (s : jsstring) : part s -> 0x40 ∉ s.
Proof.
  intros [_ H] Hin. rewrite Forall_forall in H.
  specialize (H _ Hin). discriminate.
Qed.

(** Around a character that occurs once, a string splits in one way. *)
Lemma split_once {A} (x : A) (a y pre post : list A) :
  x ∉ a -> x ∉ y -> pre ++ x :: post = a ++ x :: y -> pre = a /\ post = y.
Proof.
  revert pre. induction a as [|h a IH]; intros pre Ha Hy E.
  - destruct pre as [|p pre]; simpl in E.
    + injection E as ->. auto.
    + injection E as -> E. exfalso. apply Hy. rewrite <- E.
      apply elem_of_app. right. left.
  - destruct pre as [|p pre]; simpl in E.
    + injection E as -> _. exfalso. apply Ha. left.
    + injection E as -> E.
      destruct (IH pre) as [-> ->]; auto.
      intros Hin. apply Ha. right. exact Hin.
Qed.

Lemma shaped_has_at (s : jsstring) : shaped s -> 0x40 ∈ s.
Proof.
  intros (a & b & c & -> & _). apply elem_of_app. right. left.
Qed.

Lemma shaped_dot_after_at (pre post : jsstring) :
  shaped (pre ++ 0x40 :: post) -> 0x2E ∈ post.
Proof.
  intros (a & b & c & E & Ha & Hb & Hc).
  apply split_once in E as [_ ->].
  - apply elem_of_app. right. left.
  - apply part_no_at, Ha.
  - intros Hin. apply elem_of_app in Hin as [Hin|Hin].
    + exact (part_no_at b Hb Hin).
    + apply elem_of_cons in Hin as [Hin|Hin]; [discriminate|].
      exact (part_no_at c Hc Hin).
Qed.

Lemma not_true_false (b : bool) : ~ b = true -> b = false.
Proof. destruct b; [intros H; exfalso; auto | reflexivity]. Qed.

Lemma test_without_at (s : jsstring) : 0x40 ∉ s -> test App.emailRegex s = false.
Proof.
  intros H. apply not_true_false. intros Ht.
  apply test_pattern, shaped_has_at in Ht. contradiction.
Qed.

Lemma test_without_dot (pre post : jsstring) :
  0x2E ∉ post -> test App.emailRegex (pre ++ 0x40 :: post) = false.
Proof.
  intros H. apply not_true_false. intros Ht.
  apply test_pattern, shaped_dot_after_at in Ht. contradiction.
Qed.

End EmailFacts.

(** ** The form controller *)

Module AppFacts.
Import Js Regex App Rules JsFacts.
Local Open Scope app_scope.

Lemma jslength_lt10 (s : jsstring) :
  (jslength s <? 10) = (length s <? 10)%nat.
Proof. apply (jslength_lt s 10). Qed.

(** The mapping built by [validateForm], and what the call does with it. *)
Lemma validateForm_run (st : State) (w : World) :
  exists e : FormErrors,
    validateForm st w =
      ((size e =? 0)%nat,
       mkWorld (mkState (formData (store w)) e (status (store w))
                  (statusMessage (store w)))
               (log w ++ [SetErrors e]))
    /\ forall f, e !! f = prescribed (formData st) f.
Proof.
  unfold validateForm, prescribed, violation.
  destruct st as [[n e s m] errs stat msg]; simpl.
  rewrite jslength_lt10.
  eexists. split; [reflexivity|].
  intros f.
  destruct f; cbn [get name email subject message];
    destruct (truthy (trim n)), (truthy (trim e)), (validateEmail e),
      (truthy (trim s)), (truthy (trim m)), (length (trim m) <? 10)%nat;
    vm_compute; reflexivity.
Qed.

Lemma prescribed_none (d : FormData) (f : Field) :
  prescribed d f = None <-> violation f (get f d) = None.
Proof.
  unfold prescribed. destruct (violation f (get f d)); split; congruence.
Qed.

Lemma size_zero_valid (d : FormData) (e : FormErrors) :
  (forall f, e !! f = prescribed d f) ->
  (size e =? 0)%nat = true <-> valid d.
Proof.
  intros He. rewrite Nat.eqb_eq, map_size_empty_iff. unfold valid. split.
  - intros -> f. apply prescribed_none. rewrite <- He. apply lookup_empty.
  - intros Hv. apply map_eq. intros f.
    rewrite He, lookup_empty. apply prescribed_none, Hv.
Qed.

Lemma valid_no_errors (d : FormData) (e : FormErrors) :
  (forall f, e !! f = prescribed d f) -> valid d -> e = ∅.
Proof.
  intros He Hv. apply map_size_empty_iff, Nat.eqb_eq.
  apply (size_zero_valid d e He), Hv.
Qed.

(** Exactly one field in violation: exactly its entry in the mapping. *)
Lemma one_violation (d : FormData) (e : FormErrors) (f : Field)
    (k : ErrorKind) :
  (forall g, e !! g = prescribed d g) ->
  violation f (get f d) = Some k ->
  (forall g, g <> f -> violation g (get g d) = None) ->
  e = {[ f := Some (text f k) ]}.
Proof.
  intros He Hf Hg. apply map_eq. intros g. rewrite He.
  destruct (decide (g = f)) as [->|Hne].
  - rewrite lookup_singleton_eq. unfold prescribed. rewrite Hf. reflexivity.
  - rewrite lookup_singleton_ne by congruence.
    apply prescribed_none, Hg, Hne.
Qed.

Lemma empty_required (f : Field) (v : jsstring) :
  trim v = [] -> violation f v = Some RequiredFieldError.
Proof. intros H. destruct f; unfold violation; rewrite H; reflexivity. Qed.

(** The three ways through [handleSubmit]. *)
Lemma handleSubmit_run (Reply : Type)
    (send : FormData -> Settled Reply) (st : State) :
  exists e : FormErrors,
    (forall f, e !! f = prescribed (formData st) f)
    /\ handleSubmit Reply send st (start st) =
       if (size e =? 0)%nat then
         match send (formData st) with
         | Fulfilled _ =>
             (tt, mkWorld (mkState emptyForm e success successMessage)
                    [PreventDefault; SetErrors e; SetStatus loading;
                     SendContactEmail (formData st); SetStatus success;
                     SetStatusMessage successMessage;
                     SetFormData emptyForm])
         | Rejected reason =>
             (tt, mkWorld (mkState (formData st) e error failureMessage)
                    [PreventDefault; SetErrors e; SetStatus loading;
                     SendContactEmail (formData st);
                     ConsoleError (str "Email sending failed:") reason;
                     SetStatus error; SetStatusMessage failureMessage])
         end
       else
         (tt, mkWorld (mkState (formData st) e (status st) (statusMessage st))
                [PreventDefault; SetErrors e]).
Proof.
  destruct (validateForm_run st (mkWorld st [PreventDefault]))
    as (e & Hrun & He).
  exists e. split; [exact He|].
  unfold handleSubmit, bind at 1 2. cbn [emit start store log app].
  rewrite Hrun. cbn [store log formData errors status statusMessage app].
  destruct (size e =? 0)%nat; cbn [negb]; [|reflexivity].
  destruct (send (formData st)); reflexivity.
Qed.

End AppFacts.

Module FormController.
Import Js Regex App Rules JsFacts AppFacts Samples.

Lemma get_set_same (f : Field) (v : jsstring) (d : FormData) :
  get f (set f v d) = v.
Proof. destruct f; reflexivity. Qed.

Lemma get_set_other (f g : Field) (v : jsstring) (d : FormData) :
  g <> f -> get g (set f v d) = get g d.
Proof. destruct f, g; intros H; try reflexivity; contradiction. Qed.

(** C5: [validateForm] applies the rule of each of the four fields to that
    field's value alone, whatever the other fields hold. The mapping it
    stores has, for every field, the text of that field's violation, and no
    entry for a field without one, whatever the mapping held before. It
    returns [true] exactly when no field is in violation, and touches
    nothing but the errors. *)
Theorem validateForm_records_every_violation (st : State) (w : World) :
  let r := validateForm st w in
  (forall f, errors (store r.2) !! f =
             match violation f (get f (formData st)) with
             | Some k => Some (Some (text f k))
             | None => None
             end)
  /\ (r.1 = true <-> forall f, violation f (get f (formData st)) = None)
  /\ formData (store r.2) = formData (store w)
  /\ status (store r.2) = status (store w)
  /\ statusMessage (store r.2) = statusMessage (store w)
  /\ log r.2 = log w ++ [SetErrors (errors (store r.2))].
Proof.
  destruct (validateForm_run st w) as (e & Hrun & He).
  cbv zeta. rewrite Hrun. cbn [fst snd store log formData errors status
                                statusMessage].
  split; [exact He|].
  split; [apply (size_zero_valid (formData st) e He)|].
  repeat split.
Qed.

Lemma validateForm_records_every_violation_witness :
  (validateForm filled (start filled)).1 = true
  /\ errors (store (validateForm unnamed (start unnamed)).2) !! Name
     = Some (Some (text Name RequiredFieldError)).
Proof.
  destruct (validateForm_records_every_violation filled (start filled))
    as (_ & Hok & _).
  destruct (validateForm_records_every_violation unnamed (start unnamed))
    as (Herr & _).
  split.
  - apply Hok. intros f. destruct f; vm_compute; reflexivity.
  - rewrite (Herr Name). reflexivity.
Defined.

(** C7: for a message that is not empty once trimmed, [validateForm]
    records the too-short text for the message field exactly when the
    trimmed message has fewer than 10 code units; with 10 or more, the
    message field has no entry. *)
Theorem message_too_short_iff (st : State) :
  truthy (trim (message (formData st))) = true ->
  let e := errors (after st (validateForm st)) in
  (e !! Message = Some (Some messageTooShort)
   <-> jslength (trim (message (formData st))) < 10)
  /\ (jslength (trim (message (formData st))) = 10 -> e !! Message = None)
  /\ (10 <= jslength (trim (message (formData st))) -> e !! Message = None).
Proof.
  intros Hne. unfold after.
  destruct (validateForm_run st (start st)) as (e & Hrun & He).
  cbv zeta. rewrite Hrun. cbn [snd store errors].
  rewrite He. unfold prescribed, violation. cbn [get].
  rewrite Hne. cbn [negb]. rewrite <- jslength_lt10.
  destruct (N.ltb_spec (jslength (trim (message (formData st)))) 10)
    as [Hlt|Hge]; cbn [text].
  - split; [split; [intros _; exact Hlt | reflexivity]|].
    split; intros; lia.
  - split; [split; [discriminate | intros; lia]|].
    split; reflexivity.
Qed.

Lemma message_too_short_iff_witness :
  errors (after ten_digits (validateForm ten_digits)) !! Message = None.
Proof.
  destruct (message_too_short_iff ten_digits) as (_ & H & _).
  - reflexivity.
  - apply H. reflexivity.
Defined.

(** C8: [handleInputChange] stores the value as it is given, in the field
    named and in no other. If the errors of the render hold a text for that
    field, the field then reads as having none, and the entries of the
    other fields are as they were; otherwise the errors are not touched.
    The status and its message are not touched. *)
Theorem handleInputChange_stores_and_clears
    (st : State) (f : Field) (v : jsstring) :
  let st' := after st (handleInputChange st f v) in
  get f (formData st') = v
  /\ (forall g, g <> f -> get g (formData st') = get g (formData st))
  /\ (truthy_opt (read (errors st) f) = true ->
      read (errors st') f = None
      /\ forall g, g <> f -> errors st' !! g = errors st !! g)
  /\ (truthy_opt (read (errors st) f) = false -> errors st' = errors st)
  /\ status st' = status st
  /\ statusMessage st' = statusMessage st.
Proof.
  unfold after, handleInputChange, setFormData, setErrors, start.
  cbn [bind update emit ret store log formData errors status statusMessage
       fst snd].
  destruct (truthy_opt (read (errors st) f)) eqn:Herr;
    cbn [bind update emit ret store log formData errors status
         statusMessage fst snd];
    (split; [apply get_set_same|]);
    (split; [intros g Hg; apply get_set_other, Hg|]).
  - split.
    + intros _. split.
      * unfold read. rewrite lookup_insert_eq. reflexivity.
      * intros g Hg. apply lookup_insert_ne. congruence.
    + split; [discriminate | split; reflexivity].
  - split; [discriminate|]. repeat split.
Qed.

Lemma handleInputChange_stores_and_clears_witness :
  let st' := after two_errors (handleInputChange two_errors Name (str " K")) in
  name (formData st') = str " K"
  /\ read (errors st') Name = None
  /\ read (errors st') Email = Some emailRequired.
Proof.
  destruct (handleInputChange_stores_and_clears two_errors Name (str " K"))
    as (Hv & _ & Hc & _).
  destruct Hc as [Hn Ho]; [reflexivity|].
  split; [exact Hv|]. split; [exact Hn|].
  unfold read. rewrite (Ho Email); [reflexivity | discriminate].
Defined.

(** C9: [resetStatus] sets the status to idle and the status message to the
    empty string, and leaves the form and the errors as they were. On a
    state that is already idle with an empty message it changes nothing,
    and doing it twice is the same as doing it once. *)
Theorem resetStatus_idempotent (st : State) :
  let st' := after st resetStatus in
  status st' = idle
  /\ statusMessage st' = []
  /\ formData st' = formData st
  /\ errors st' = errors st
  /\ (status st = idle -> statusMessage st = [] -> st' = st)
  /\ after st' resetStatus = st'.
Proof.
  cbv zeta. repeat split.
  destruct st as [d e s m]. cbn. intros -> ->. reflexivity.
Qed.

Lemma resetStatus_idempotent_witness :
  after initial resetStatus = initial.
Proof.
  destruct (resetStatus_idempotent initial) as (_ & _ & _ & _ & H & _).
  apply H; reflexivity.
Defined.

Lemma validateForm_fst (st : State) (w : World) :
  (validateForm st w).1 = true <-> valid (formData st).
Proof.
  destruct (validateForm_run st w) as (e & -> & He).
  apply (size_zero_valid (formData st) e He).
Qed.

(** C2: when [validateForm] returns [false], [handleSubmit] hands nothing
    to the mail helper and leaves the status, its message and the form as
    they were: besides suppressing the default action of the event, storing
    the errors is all it does. When exactly one field is in violation, in
    particular when one field is empty once trimmed and the other three are
    valid, [validateForm] returns [false] and the errors stored are exactly
    one entry, for that field. *)
Theorem invalid_submit_records_errors_only (Reply : Type)
    (send : FormData -> Settled Reply) (st : State) :
  let h := handleSubmit Reply send st in
  ((validateForm st (start st)).1 = false ->
     status (after st h) = status st
     /\ statusMessage (after st h) = statusMessage st
     /\ formData (after st h) = formData st
     /\ sent (calls st h) = []
     /\ calls st h = [PreventDefault; SetErrors (errors (after st h))])
  /\ (forall f k,
        violation f (get f (formData st)) = Some k ->
        (forall g, g <> f -> violation g (get g (formData st)) = None) ->
        (validateForm st (start st)).1 = false
        /\ errors (after st h) = {[ f := Some (text f k) ]}
        /\ size (errors (after st h)) = 1%nat
        /\ sent (calls st h) = [])
  /\ (forall f,
        trim (get f (formData st)) = [] ->
        (forall g, g <> f -> violation g (get g (formData st)) = None) ->
        (validateForm st (start st)).1 = false
        /\ errors (after st h) = {[ f := Some (text f RequiredFieldError) ]}
        /\ size (errors (after st h)) = 1%nat
        /\ sent (calls st h) = []).
Proof.
  cbv zeta. unfold after, calls.
  assert (Hinv : ~ valid (formData st) ->
    exists e : FormErrors,
      (forall f, e !! f = prescribed (formData st) f)
      /\ handleSubmit Reply send st (start st) =
         (tt, mkWorld (mkState (formData st) e (status st) (statusMessage st))
                [PreventDefault; SetErrors e])).
  { intros Hn. destruct (handleSubmit_run Reply send st) as (e & He & ->).
    exists e. split; [exact He|].
    destruct (size e =? 0)%nat eqn:Hs; [|reflexivity].
    apply (size_zero_valid (formData st) e He) in Hs. contradiction. }
  assert (Hone : forall f k,
    violation f (get f (formData st)) = Some k -> ~ valid (formData st)).
  { intros f k Hf Hv. specialize (Hv f). congruence. }
  assert (Hfalse : ~ valid (formData st) ->
    (validateForm st (start st)).1 = false).
  { intros Hn. destruct ((validateForm st (start st)).1) eqn:Hv;
      [|reflexivity].
    apply validateForm_fst in Hv. contradiction. }
  assert (Htwo : forall f k,
    violation f (get f (formData st)) = Some k ->
    (forall g, g <> f -> violation g (get g (formData st)) = None) ->
    (validateForm st (start st)).1 = false
    /\ errors (store (handleSubmit Reply send st (start st)).2)
       = {[ f := Some (text f k) ]}
    /\ size (errors (store (handleSubmit Reply send st (start st)).2)) = 1%nat
    /\ sent (log (handleSubmit Reply send st (start st)).2) = []).
  { intros f k Hf Hg.
    destruct (Hinv (Hone f k Hf)) as (e & He & ->).
    cbn [snd store log errors].
    rewrite (one_violation (formData st) e f k He Hf Hg).
    split; [exact (Hfalse (Hone f k Hf))|].
    split; [reflexivity|]. split; [apply map_size_singleton | reflexivity]. }
  split; [|split].
  - intros Hv.
    destruct Hinv as (e & He & ->).
    + intros Hvalid. apply (validateForm_fst st (start st)) in Hvalid.
      congruence.
    + cbn [snd store log formData errors status statusMessage].
      repeat split.
  - exact Htwo.
  - intros f Hf. apply Htwo. apply empty_required, Hf.
Qed.

Lemma invalid_submit_records_errors_only_witness :
  let h := handleSubmit unit (fun _ => Fulfilled tt) unnamed in
  (validateForm unnamed (start unnamed)).1 = false
  /\ status (after unnamed h) = idle
  /\ errors (after unnamed h) = {[ Name := Some nameRequired ]}
  /\ size (errors (after unnamed h)) = 1%nat
  /\ sent (calls unnamed h) = [].
Proof.
  destruct (invalid_submit_records_errors_only unit
              (fun _ => Fulfilled tt) unnamed) as (Hinv & _ & Hempty).
  destruct (Hempty Name) as (Hv & He & Hsize & Hsent).
  - reflexivity.
  - intros g Hg. destruct g; [contradiction | | |]; vm_compute; reflexivity.
  - destruct (Hinv Hv) as (Hs & _).
    cbv zeta. split; [exact Hv|]. split; [exact Hs|].
    split; [rewrite He; reflexivity|]. split; [exact Hsize | exact Hsent].
Defined.

End FormController.

(** ** The relay *)

Module RelayFacts.
Import Js Regex Relay Rules.
Local Open Scope relay_scope.

Lemma options_is_options :
  bool_decide (str "OPTIONS" = str "OPTIONS") = true.
Proof. apply bool_decide_eq_true_2. reflexivity. Qed.

Lemma post_is_not_options :
  bool_decide (str "POST" = str "OPTIONS") = false.
Proof. apply bool_decide_eq_false_2. vm_compute. discriminate. Qed.

Lemma post_is_post : bool_decide (str "POST" = str "POST") = true.
Proof. apply bool_decide_eq_true_2. reflexivity. Qed.

(** The pattern of the relay is the pattern of the form. *)
Lemma same_pattern : Relay.emailRegex = App.emailRegex.
Proof. reflexivity. Qed.

Lemma test_truthy (r : regex) (s : jsstring) :
  nullable r = false -> test r s = true -> truthy s = true.
Proof. destruct s; simpl; [congruence | reflexivity]. Qed.

Lemma email_truthy (s : jsstring) :
  test Relay.emailRegex s = true -> truthy s = true.
Proof. apply test_truthy. reflexivity. Qed.

Ltac run :=
  cbn [bind when ret return_ emit await receiver throw negb orb andb fst snd
       Request.method Request.json app].

Section Handler.
Variable corsHeaders : gmap jsstring jsstring.
Variable env : gmap jsstring jsstring.
Variable fetch : jsstring -> Init.t -> option Fetched.t.

Abbreviation serve := (Relay.serve corsHeaders env fetch).
Abbreviation attempt := (Relay.attempt corsHeaders env fetch).
Abbreviation json_response := (Relay.json_response corsHeaders).

Lemma serve_options (req : Request.t) :
  Request.method req = str "OPTIONS" ->
  serve req = (Response.mk 200 corsHeaders None, []).
Proof.
  intros Hm. unfold Relay.serve, Relay.attempt. rewrite Hm.
  rewrite options_is_options. reflexivity.
Qed.

Lemma serve_not_allowed (req : Request.t) :
  Request.method req <> str "OPTIONS" ->
  Request.method req <> str "POST" ->
  serve req =
    (json_response 405
       [(str "error", Some (JStr (str "Method not allowed")))], []).
Proof.
  intros Ho Hp. unfold Relay.serve, Relay.attempt.
  rewrite (bool_decide_eq_false_2 _ Ho), (bool_decide_eq_false_2 _ Hp).
  reflexivity.
Qed.

(** A POST whose body parses gets past the method checks. *)
Lemma serve_missing (req : Request.t) (b : EmailRequest.t) :
  Request.method req = str "POST" ->
  Request.json req = Some b ->
  complete b = false ->
  serve req =
    (json_response 400
       [(str "error", Some (JStr (str "All fields are required")))], []).
Proof.
  intros Hm Hj Hc. unfold Relay.serve, Relay.attempt. rewrite Hm, Hj.
  rewrite post_is_not_options, post_is_post. run.
  unfold complete in Hc.
  destruct (truthy_opt (EmailRequest.name b)),
    (truthy_opt (EmailRequest.email b)),
    (truthy_opt (EmailRequest.subject b)),
    (truthy_opt (EmailRequest.message b)); try discriminate; reflexivity.
Qed.

Lemma serve_invalid_email (req : Request.t) (b : EmailRequest.t) :
  Request.method req = str "POST" ->
  Request.json req = Some b ->
  complete b = true ->
  test Relay.emailRegex (toString (EmailRequest.email b)) = false ->
  serve req =
    (json_response 400
       [(str "error", Some (JStr (str "Invalid email format")))], []).
Proof.
  intros Hm Hj Hc He. unfold Relay.serve, Relay.attempt. rewrite Hm, Hj.
  rewrite post_is_not_options, post_is_post. run.
  unfold complete in Hc.
  destruct (truthy_opt (EmailRequest.name b)),
    (truthy_opt (EmailRequest.email b)),
    (truthy_opt (EmailRequest.subject b)),
    (truthy_opt (EmailRequest.message b)); try discriminate.
  run. rewrite He. reflexivity.
Qed.

Lemma serve_unconfigured (req : Request.t) (b : EmailRequest.t) :
  Request.method req = str "POST" ->
  Request.json req = Some b ->
  complete b = true ->
  test Relay.emailRegex (toString (EmailRequest.email b)) = true ->
  truthy_opt (env !! str "RESEND_API_KEY") = false ->
  serve req =
    (json_response 500
       [(str "error", Some (JStr (str "Email service not configured")))],
     [ConsoleError
        (str "RESEND_API_KEY not found in environment variables") None]).
Proof.
  intros Hm Hj Hc He Hk. unfold Relay.serve, Relay.attempt. rewrite Hm, Hj.
  rewrite post_is_not_options, post_is_post. run.
  unfold complete in Hc.
  destruct (truthy_opt (EmailRequest.name b)),
    (truthy_opt (EmailRequest.email b)),
    (truthy_opt (EmailRequest.subject b)),
    (truthy_opt (EmailRequest.message b)); try discriminate.
  run. rewrite He. run. rewrite Hk. reflexivity.
Qed.

(** Past the three checks: a complete body with a well-formed address,
    and a credential. *)
Section Forwarded.
Variable req : Request.t.
Variable b : EmailRequest.t.
Variable text : jsstring.
Hypothesis Hmethod : Request.method req = str "POST".
Hypothesis Hjson : Request.json req = Some b.
Hypothesis Hcomplete : complete b = true.
Hypothesis Hemail :
  test Relay.emailRegex (toString (EmailRequest.email b)) = true.
Hypothesis Hkey : truthy_opt (env !! str "RESEND_API_KEY") = true.
Hypothesis Htext : EmailRequest.message b = Some text.

Abbreviation forwarded := (Relay.forwarded env b text).
Abbreviation internal_error := (Relay.internalError corsHeaders).

Lemma serve_forwarded :
  serve req =
    match fetch resendUrl forwarded with
    | None =>
        (internal_error,
         [Fetch resendUrl forwarded;
          ConsoleError (str "Error sending email:") None])
    | Some response =>
        match Fetched.json response with
        | None =>
            (internal_error,
             [Fetch resendUrl forwarded;
              ConsoleError (str "Error sending email:") None])
        | Some data =>
            if Fetched.ok response then
              (json_response 200
                 [(str "success", Some (JBool true));
                  (str "message",
                   Some (JStr (str "메일이 성공적으로 전송되었습니다!")));
                  (str "id", JStr <$> ProviderJson.id data)],
               [Fetch resendUrl forwarded;
                ConsoleLog (str "Email sent successfully:") (Some data)])
            else
              (json_response 500
                 [(str "error", Some (JStr (str "Failed to send email")));
                  (str "details",
                   Some (JStr (or_else (ProviderJson.message data)
                                 (str "Unknown error"))))],
               [Fetch resendUrl forwarded;
                ConsoleError (str "Resend API error:") (Some data)])
        end
    end.
Proof.
  unfold Relay.serve, Relay.attempt. rewrite Hmethod, Hjson.
  rewrite post_is_not_options, post_is_post. run.
  unfold complete in Hcomplete. rewrite Htext in *.
  destruct (truthy_opt (EmailRequest.name b)),
    (truthy_opt (EmailRequest.email b)),
    (truthy_opt (EmailRequest.subject b)),
    (truthy_opt (Some text)); try discriminate.
  run. rewrite Hemail. run. rewrite Hkey. run.
  unfold Relay.forwarded.
  destruct (fetch resendUrl _) as [response|]; run;
    [|reflexivity].
  destruct (Fetched.ok response), (Fetched.json response) as [data|];
    reflexivity.
Qed.

End Forwarded.

Lemma complete_message (b : EmailRequest.t) :
  complete b = true -> exists text, EmailRequest.message b = Some text.
Proof.
  unfold complete. destruct (EmailRequest.message b) as [text|].
  - eauto.
  - rewrite andb_false_r. discriminate.
Qed.

(** Past the checks of the body, no response has status 400. *)
Lemma serve_accepted (req : Request.t) (b : EmailRequest.t) :
  Request.method req = str "POST" ->
  Request.json req = Some b ->
  complete b = true ->
  test Relay.emailRegex (toString (EmailRequest.email b)) = true ->
  Response.status (serve req).1 <> 400.
Proof.
  intros Hm Hj Hc He.
  destruct (truthy_opt (env !! str "RESEND_API_KEY")) eqn:Hk.
  - destruct (complete_message b Hc) as [text Ht].
    rewrite (serve_forwarded req b text Hm Hj Hc He Hk Ht).
    destruct (fetch resendUrl _) as [response|]; [|discriminate].
    destruct (Fetched.json response), (Fetched.ok response); discriminate.
  - rewrite (serve_unconfigured req b Hm Hj Hc He Hk). discriminate.
Qed.

Lemma serve_fetches (req : Request.t) (b : EmailRequest.t)
    (text : jsstring) :
  Request.method req = str "POST" ->
  Request.json req = Some b ->
  complete b = true ->
  test Relay.emailRegex (toString (EmailRequest.email b)) = true ->
  truthy_opt (env !! str "RESEND_API_KEY") = true ->
  EmailRequest.message b = Some text ->
  fetched (serve req).2 = [(resendUrl, Relay.forwarded env b text)].
Proof.
  intros Hm Hj Hc He Hk Ht.
  rewrite (serve_forwarded req b text Hm Hj Hc He Hk Ht).
  destruct (fetch resendUrl _) as [response|]; [|reflexivity].
  destruct (Fetched.json response), (Fetched.ok response); reflexivity.
Qed.

End Handler.

End RelayFacts.

Module SubmissionRelay.
Import Js Regex Relay Rules RegexFacts EmailFacts RelayFacts.



Lemma nonempty_truthy (s : jsstring) : s <> [] -> truthy s = true.
Proof. destruct s; [contradiction | reflexivity]. Qed.

Lemma blank_required (f : App.Field) (v : jsstring) :
  blank v -> violation f v = Some RequiredFieldError.
Proof. intros [_ H]. apply AppFacts.empty_required, JsFacts.trim_blank, H. Qed.

Lemma blank_recorded (st : App.State) (f : App.Field) :
  blank (App.get f (App.formData st)) ->
  App.errors (App.after st (App.validateForm st)) !! f
  = Some (Some (text f RequiredFieldError)).
Proof.
  intros Hb. unfold App.after.
  destruct (AppFacts.validateForm_run st (App.start st)) as (e & -> & He).
  cbn [snd App.store App.errors]. rewrite He. unfold prescribed.
  rewrite (blank_required f _ Hb). reflexivity.
Qed.

(** C10: the relay tests its four members for truthiness, without
    trimming. For a POST whose name, subject and message are not empty, one
    of them being only whitespace, and whose address passes the pattern,
    the response is none of the 400 ones, and with a credential configured
    the provider is called, once, with the payload built from these very
    values. The form holding the same values is rejected by
    [validateForm], which records the required-field text for each of the
    whitespace-only fields. *)
Theorem relay_forwards_blank_fields
    (corsHeaders env : gmap jsstring jsstring)
    (fetch : jsstring -> Init.t -> option Fetched.t)
    (n e s m : jsstring) :
  n <> [] -> s <> [] -> m <> [] ->
  blank n \/ blank s \/ blank m ->
  test Relay.emailRegex e = true ->
  let b := EmailRequest.mk (Some n) (Some e) (Some s) (Some m) in
  let r := Relay.serve corsHeaders env fetch (Request.mk (str "POST") (Some b)) in
  let st := App.mkState (App.mkFormData n e s m) ∅ App.idle [] in
  let errs := App.errors (App.after st (App.validateForm st)) in
  complete b = true
  /\ Response.status r.1 <> 400
  /\ (truthy_opt (env !! str "RESEND_API_KEY") = true ->
      fetched r.2 = [(resendUrl, Relay.forwarded env b m)]
      /\ Payload.html (Init.body (Relay.forwarded env b m))
         = htmlHead ++ n ++ htmlAfterName ++ e ++ htmlAfterEmail ++ s
           ++ htmlAfterSubject ++ replace_newlines (str "<br>") m
           ++ htmlTail)
  /\ (App.validateForm st (App.start st)).1 = false
  /\ (blank n -> errs !! App.Name = Some (Some App.nameRequired))
  /\ (blank s -> errs !! App.Subject = Some (Some App.subjectRequired))
  /\ (blank m -> errs !! App.Message = Some (Some App.messageRequired)).
Proof.
  intros Hn Hs Hm Hblank He. cbv zeta.
  assert (Hc : complete (EmailRequest.mk (Some n) (Some e) (Some s) (Some m))
               = true).
  { unfold complete. cbn [EmailRequest.name EmailRequest.email
      EmailRequest.subject EmailRequest.message truthy_opt].
    rewrite (nonempty_truthy n Hn), (nonempty_truthy s Hs),
      (nonempty_truthy m Hm), (email_truthy e He). reflexivity. }
  split; [exact Hc|].
  split; [apply (serve_accepted _ _ _ (Request.mk (str "POST") _) _
                   eq_refl eq_refl Hc He)|].
  split.
  { intros Hk. split; [|reflexivity].
    apply (serve_fetches _ _ _ (Request.mk (str "POST") _) _ m
             eq_refl eq_refl Hc He Hk eq_refl). }
  split.
  { destruct (App.validateForm _ _).1 eqn:Hv; [|reflexivity].
    apply FormController.validateForm_fst in Hv.
    cbn [App.formData] in Hv.
    destruct Hblank as [Hb|[Hb|Hb]].
    - specialize (Hv App.Name). cbn [App.get App.name] in Hv.
      rewrite (blank_required App.Name n Hb) in Hv. discriminate.
    - specialize (Hv App.Subject). cbn [App.get App.subject] in Hv.
      rewrite (blank_required App.Subject s Hb) in Hv. discriminate.
    - specialize (Hv App.Message). cbn [App.get App.message] in Hv.
      rewrite (blank_required App.Message m Hb) in Hv. discriminate. }
  set (st := App.mkState (App.mkFormData n e s m) ∅ App.idle []).
  split; [|split]; intros Hb.
  - rewrite (blank_recorded st App.Name Hb). reflexivity.
  - rewrite (blank_recorded st App.Subject Hb). reflexivity.
  - rewrite (blank_recorded st App.Message Hb). reflexivity.
Qed.

(** C4: the check of the form and the check of the relay accept the same
    strings: those made of a local part, [@], a domain, [.] and a rest,
    each part one or more code units that are neither whitespace nor [@].
    A string without [@], or with no [.] after an [@], fails both; a string
    of that shape, such as [a@b.c], passes both. In the handler itself, a
    POST with its four members is answered 400, invalid email format,
    exactly when the check of the form rejects its address. *)
Theorem email_checks_agree :
  (forall s, App.validateEmail s = test Relay.emailRegex s)
  /\ (forall s, App.validateEmail s = true <-> shaped s)
  /\ (forall s, 0x40 ∉ s ->
       App.validateEmail s = false /\ test Relay.emailRegex s = false)
  /\ (forall pre post, 0x2E ∉ post ->
       App.validateEmail (pre ++ 0x40 :: post) = false
       /\ test Relay.emailRegex (pre ++ 0x40 :: post) = false)
  /\ (forall a b c, part a -> part b -> part c ->
       App.validateEmail (a ++ 0x40 :: b ++ 0x2E :: c) = true
       /\ test Relay.emailRegex (a ++ 0x40 :: b ++ 0x2E :: c) = true)
  /\ App.validateEmail (str "a@b.c") = true
  /\ test Relay.emailRegex (str "a@b.c") = true
  /\ (forall corsHeaders env fetch req b,
       Request.method req = str "POST" ->
       Request.json req = Some b ->
       complete b = true ->
       ((Relay.serve corsHeaders env fetch req).1
        = Relay.json_response corsHeaders 400
            [(str "error", Some (JStr (str "Invalid email format")))]
        <-> App.validateEmail (toString (EmailRequest.email b)) = false)).
Proof.
  unfold App.validateEmail. rewrite same_pattern.
  split; [reflexivity|].
  split; [apply test_pattern|].
  split; [intros s H; split; apply test_without_at, H|].
  split; [intros pre post H; split; apply test_without_dot, H|].
  split.
  { intros a b c Ha Hb Hc.
    assert (test App.emailRegex (a ++ 0x40 :: b ++ 0x2E :: c) = true)
      by (apply test_pattern; exists a, b, c; auto).
    auto. }
  split; [reflexivity|]. split; [reflexivity|].
  intros corsHeaders env fetch req b Hm Hj Hc. rewrite <- same_pattern. split.
  - intros Hr.
    destruct (test Relay.emailRegex (toString (EmailRequest.email b)))
      eqn:He; [|reflexivity].
    exfalso.
    apply (serve_accepted corsHeaders env fetch req b Hm Hj Hc He).
    rewrite Hr. reflexivity.
  - intros He.
    rewrite (serve_invalid_email corsHeaders env fetch req b Hm Hj Hc He).
    reflexivity.
Qed.

Lemma no_at_sample : 0x40 ∉ str "kim.example.com".
Proof. refine (bool_decide_unpack _ _). vm_compute. exact I. Qed.

Lemma no_dot_sample : 0x2E ∉ str "example".
Proof. refine (bool_decide_unpack _ _). vm_compute. exact I. Qed.

Lemma part_sample : part (str "kim").
Proof.
  unfold part. refine (bool_decide_unpack _ _). vm_compute. exact I.
Qed.

Lemma spaces_blank : blank Samples.spaces.
Proof.
  unfold blank. refine (bool_decide_unpack _ _). vm_compute. exact I.
Qed.


Lemma relay_forwards_blank_fields_witness :
  let b := EmailRequest.mk (Some Samples.spaces) (Some (str "kim@example.com"))
             (Some (str "Hello")) (Some (str "0123456789")) in
  let r := Relay.serve Samples.cors Samples.configured Samples.accepting
             (Request.mk (str "POST") (Some b)) in
  Response.status r.1 <> 400
  /\ fetched r.2
     = [(resendUrl, Relay.forwarded Samples.configured b (str "0123456789"))].
Proof.
  destruct (relay_forwards_blank_fields Samples.cors Samples.configured
              Samples.accepting Samples.spaces (str "kim@example.com")
              (str "Hello") (str "0123456789"))
    as (_ & Hs & Hf & _).
  - vm_compute. discriminate.
  - vm_compute. discriminate.
  - vm_compute. discriminate.
  - left. exact spaces_blank.
  - vm_compute. reflexivity.
  - cbv zeta. split; [exact Hs|]. apply Hf. vm_compute. reflexivity.
Defined.

Lemma email_checks_agree_witness :
  App.validateEmail (str "kim.example.com") = false
  /\ test Relay.emailRegex (str "kim@example") = false
  /\ App.validateEmail (str "kim" ++ 0x40 :: str "kim" ++ 0x2E :: str "kim")
     = true.
Proof.
  destruct email_checks_agree as (_ & _ & Hat & Hdot & Hshape & _).
  split; [apply (Hat _ no_at_sample)|].
  split; [apply (Hdot (str "kim") (str "example") no_dot_sample)|].
  apply (Hshape _ _ _ part_sample part_sample part_sample).
Defined.

End SubmissionRelay.

(** ** A submission, from the form to the provider and back *)

Module Submission.
Import Js Regex Rules RegexFacts RelayFacts Samples.

Lemma handleSubmit_fulfilled (Reply : Type)
    (send : App.FormData -> App.Settled Reply) (st : App.State) (r : Reply) :
  (App.validateForm st (App.start st)).1 = true ->
  send (App.formData st) = App.Fulfilled r ->
  App.handleSubmit Reply send st (App.start st) =
    (tt, App.mkWorld
           (App.mkState App.emptyForm ∅ App.success App.successMessage)
           [App.PreventDefault; App.SetErrors ∅; App.SetStatus App.loading;
            App.SendContactEmail (App.formData st);
            App.SetStatus App.success;
            App.SetStatusMessage App.successMessage;
            App.SetFormData App.emptyForm]).
Proof.
  intros Hv Hs. apply FormController.validateForm_fst in Hv.
  destruct (AppFacts.handleSubmit_run Reply send st) as (e & He & ->).
  rewrite (AppFacts.valid_no_errors _ e He Hv), Hs. reflexivity.
Qed.

Lemma handleSubmit_rejected (Reply : Type)
    (send : App.FormData -> App.Settled Reply) (st : App.State)
    (reason : jsstring) :
  (App.validateForm st (App.start st)).1 = true ->
  send (App.formData st) = App.Rejected reason ->
  App.handleSubmit Reply send st (App.start st) =
    (tt, App.mkWorld
           (App.mkState (App.formData st) ∅ App.error App.failureMessage)
           [App.PreventDefault; App.SetErrors ∅; App.SetStatus App.loading;
            App.SendContactEmail (App.formData st);
            App.ConsoleError (str "Email sending failed:") reason;
            App.SetStatus App.error;
            App.SetStatusMessage App.failureMessage]).
Proof.
  intros Hv Hs. apply FormController.validateForm_fst in Hv.
  destruct (AppFacts.handleSubmit_run Reply send st) as (e & He & ->).
  rewrite (AppFacts.valid_no_errors _ e He Hv), Hs. reflexivity.
Qed.

(** C1: when the form of an idle render passes [validateForm] and the mail
    helper succeeds, [handleSubmit] sets the status to loading, hands the
    form to the helper, sets the status to success with the fixed success
    text, and empties the four fields. When the relay has accepted a POST,
    holds a credential, and the provider answers ok with an identifier, the
    response of the relay is 200 with the members success (true), message
    and id, the id being the provider's. *)
Theorem valid_submission_succeeds :
  (forall (Reply : Type) (send : App.FormData -> App.Settled Reply)
          (st : App.State) (r : Reply),
     App.status st = App.idle ->
     (App.validateForm st (App.start st)).1 = true ->
     send (App.formData st) = App.Fulfilled r ->
     let h := App.handleSubmit Reply send st in
     App.status st :: App.statuses (App.calls st h)
       = [App.idle; App.loading; App.success]
     /\ App.sent (App.calls st h) = [App.formData st]
     /\ App.status (App.after st h) = App.success
     /\ App.statusMessage (App.after st h) = App.successMessage
     /\ App.formData (App.after st h) = App.mkFormData [] [] [] [])
  /\ (forall (corsHeaders env : gmap jsstring jsstring)
             (fetch : jsstring -> Relay.Init.t -> option Relay.Fetched.t)
             (req : Relay.Request.t) (b : Relay.EmailRequest.t)
             (text : jsstring) (response : Relay.Fetched.t)
             (data : Relay.ProviderJson.t) (ident : jsstring),
        Relay.Request.method req = str "POST" ->
        Relay.Request.json req = Some b ->
        Relay.complete b = true ->
        test Relay.emailRegex (Relay.toString (Relay.EmailRequest.email b))
          = true ->
        truthy_opt (env !! str "RESEND_API_KEY") = true ->
        Relay.EmailRequest.message b = Some text ->
        fetch Relay.resendUrl (Relay.forwarded env b text) = Some response ->
        Relay.Fetched.ok response = true ->
        Relay.Fetched.json response = Some data ->
        Relay.ProviderJson.id data = Some ident ->
        let r := Relay.serve corsHeaders env fetch req in
        Relay.Response.status r.1 = 200
        /\ Relay.Response.body r.1
           = Some [(str "success", Relay.JBool true);
                   (str "message",
                    Relay.JStr (str "메일이 성공적으로 전송되었습니다!"));
                   (str "id", Relay.JStr ident)]
        /\ Relay.fetched r.2 = [(Relay.resendUrl, Relay.forwarded env b text)]).
Proof.
  split.
  - intros Reply send st r Hidle Hv Hs. cbv zeta. unfold App.after, App.calls.
    rewrite (handleSubmit_fulfilled Reply send st r Hv Hs), Hidle.
    repeat split.
  - intros corsHeaders env fetch req b text response data ident
      Hm Hj Hc He Hk Ht Hf Hok Hd Hid. cbv zeta.
    rewrite (serve_forwarded corsHeaders env fetch req b text
               Hm Hj Hc He Hk Ht), Hf, Hd, Hok.
    cbn [fst snd]. unfold Relay.json_response.
    cbn [Relay.Response.status Relay.Response.body]. rewrite Hid.
    repeat split.
Qed.

(** C6: when the form passes [validateForm] and the mail helper fails,
    whatever the reason, [handleSubmit] sets the status to error with the
    fixed failure text and leaves the four fields as they were. The reason
    goes to the console only: the state left is the same for every
    reason. *)
Theorem failed_submission_keeps_form (Reply : Type)
    (send : App.FormData -> App.Settled Reply) (st : App.State)
    (reason : jsstring) :
  (App.validateForm st (App.start st)).1 = true ->
  send (App.formData st) = App.Rejected reason ->
  let h := App.handleSubmit Reply send st in
  App.status (App.after st h) = App.error
  /\ App.statusMessage (App.after st h) = App.failureMessage
  /\ App.formData (App.after st h) = App.formData st
  /\ App.after st h
     = App.mkState (App.formData st) ∅ App.error App.failureMessage
  /\ App.statuses (App.calls st h) = [App.loading; App.error]
  /\ App.calls st h
     = [App.PreventDefault; App.SetErrors ∅; App.SetStatus App.loading;
        App.SendContactEmail (App.formData st);
        App.ConsoleError (str "Email sending failed:") reason;
        App.SetStatus App.error; App.SetStatusMessage App.failureMessage].
Proof.
  intros Hv Hs. cbv zeta. unfold App.after, App.calls.
  rewrite (handleSubmit_rejected Reply send st reason Hv Hs).
  repeat split.
Qed.

Lemma valid_submission_succeeds_witness :
  let h := App.handleSubmit unit (fun _ => App.Fulfilled tt) filled in
  App.status (App.after filled h) = App.success
  /\ App.formData (App.after filled h) = App.mkFormData [] [] [] []
  /\ Relay.Response.status
       (Relay.serve cors configured accepting (post kim)).1 = 200.
Proof.
  destruct valid_submission_succeeds as [Hform Hrelay].
  destruct (Hform unit (fun _ => App.Fulfilled tt) filled tt)
    as (_ & _ & Hs & _ & Hd); try (vm_compute; reflexivity).
  destruct (Hrelay cors configured accepting (post kim) (Client.body_of kim)
              (App.message kim)
              (Relay.Fetched.mk true
                 (Some (Relay.ProviderJson.mk (Some (str "49a3999c")) None)))
              (Relay.ProviderJson.mk (Some (str "49a3999c")) None)
              (str "49a3999c"))
    as (Hr & _); try (vm_compute; reflexivity).
  cbv zeta. auto.
Defined.

Lemma failed_submission_keeps_form_witness :
  let h := App.handleSubmit unit (fun _ => App.Rejected (str "boom")) filled in
  App.status (App.after filled h) = App.error
  /\ App.formData (App.after filled h) = kim.
Proof.
  destruct (failed_submission_keeps_form unit
              (fun _ => App.Rejected (str "boom")) filled (str "boom"))
    as (Hs & _ & Hd & _); try (vm_compute; reflexivity).
  cbv zeta. auto.
Defined.

(** *** The two programs together

    The relay as the network of the form: the helper modelled from the
    specification posts the form to [Relay.serve]. *)

Section EndToEnd.
Variable corsHeaders : gmap jsstring jsstring.
Variable env : gmap jsstring jsstring.
Variable fetch : jsstring -> Relay.Init.t -> option Relay.Fetched.t.

Abbreviation online := (Client.online corsHeaders env fetch).

Lemma valid_truthy (d : App.FormData) (f : App.Field) :
  valid d -> truthy (App.get f d) = true.
Proof.
  intros Hv. specialize (Hv f). apply JsFacts.trim_truthy.
  destruct f; unfold violation in Hv;
    destruct (truthy (trim (App.get _ d))); try reflexivity;
    discriminate.
Qed.

Lemma valid_email (d : App.FormData) :
  valid d -> test Relay.emailRegex (App.email d) = true.
Proof.
  intros Hv. specialize (Hv App.Email). unfold violation in Hv.
  cbn [App.get] in Hv. rewrite same_pattern.
  destruct (truthy (trim (App.email d))); [|discriminate].
  cbn [negb] in Hv. unfold App.validateEmail in Hv.
  destruct (test App.emailRegex (App.email d));
    [reflexivity | discriminate].
Qed.

(** What passes the form passes the checks of the relay. *)
Lemma valid_complete (d : App.FormData) :
  valid d -> Relay.complete (Client.body_of d) = true.
Proof.
  intros Hv. unfold Relay.complete, Client.body_of.
  cbn [Relay.EmailRequest.name Relay.EmailRequest.email
       Relay.EmailRequest.subject Relay.EmailRequest.message truthy_opt].
  pose proof (valid_truthy d App.Name Hv) as Hn.
  pose proof (valid_truthy d App.Email Hv) as He.
  pose proof (valid_truthy d App.Subject Hv) as Hs.
  pose proof (valid_truthy d App.Message Hv) as Hm.
  cbn [App.get] in Hn, He, Hs, Hm. rewrite Hn, He, Hs, Hm.
  reflexivity.
Qed.

Lemma network_failure_rejects (d : App.FormData) :
  exists reason,
    Client.sendContactEmail (fun _ => None) d = App.Rejected reason.
Proof. eexists. reflexivity. Qed.

Lemma non_success_rejects
    (network : Relay.Request.t -> option Relay.Response.t)
    (d : App.FormData) (r : Relay.Response.t) :
  network (Client.request_of d) = Some r ->
  Client.succeeded r = false ->
  exists reason, Client.sendContactEmail network d = App.Rejected reason.
Proof.
  intros Hn Hs. unfold Client.sendContactEmail. rewrite Hn, Hs. eauto.
Qed.

(** Without the credential the relay answers 500, and the form ends in
    the error status with the fixed text and its fields as they were. *)
Lemma unconfigured_relay_fails_the_form (st : App.State) :
  valid (App.formData st) ->
  env !! str "RESEND_API_KEY" = None ->
  let h := App.handleSubmit _ (Client.sendContactEmail online) st in
  Relay.Response.status
    (Relay.serve corsHeaders env fetch
       (Client.request_of (App.formData st))).1 = 500
  /\ App.status (App.after st h) = App.error
  /\ App.statusMessage (App.after st h) = App.failureMessage
  /\ App.formData (App.after st h) = App.formData st.
Proof.
  intros Hv Hk. cbv zeta.
  assert (Hr : Relay.serve corsHeaders env fetch
                 (Client.request_of (App.formData st))
               = (Relay.json_response corsHeaders 500
                    [(str "error",
                      Some (Relay.JStr
                              (str "Email service not configured")))],
                  [Relay.ConsoleError
                     (str "RESEND_API_KEY not found in environment variables")
                     None])).
  { apply (serve_unconfigured corsHeaders env fetch _
             (Client.body_of (App.formData st))).
    - reflexivity.
    - reflexivity.
    - apply valid_complete, Hv.
    - apply valid_email, Hv.
    - rewrite Hk. reflexivity. }
  split; [rewrite Hr; reflexivity|].
  unfold App.after.
  rewrite (handleSubmit_rejected _ (Client.sendContactEmail online) st
             (str "Edge Function returned a non-2xx status code")).
  - repeat split.
  - apply FormController.validateForm_fst, Hv.
  - unfold Client.sendContactEmail, Client.online. rewrite Hr. reflexivity.
Qed.

(** With the credential and an accepting provider, the form ends in the
    success status, emptied. *)
Lemma accepted_mail_clears_the_form (st : App.State)
    (response : Relay.Fetched.t) (data : Relay.ProviderJson.t) :
  valid (App.formData st) ->
  truthy_opt (env !! str "RESEND_API_KEY") = true ->
  fetch Relay.resendUrl
    (Relay.forwarded env (Client.body_of (App.formData st))
       (App.message (App.formData st))) = Some response ->
  Relay.Fetched.ok response = true ->
  Relay.Fetched.json response = Some data ->
  let h := App.handleSubmit _ (Client.sendContactEmail online) st in
  App.status (App.after st h) = App.success
  /\ App.statusMessage (App.after st h) = App.successMessage
  /\ App.formData (App.after st h) = App.emptyForm.
Proof.
  intros Hv Hk Hf Hok Hd. cbv zeta. unfold App.after.
  rewrite (handleSubmit_fulfilled _ (Client.sendContactEmail online) st
             (Relay.json_response corsHeaders 200
                [(str "success", Some (Relay.JBool true));
                 (str "message",
                  Some (Relay.JStr
                          (str "메일이 성공적으로 전송되었습니다!")));
                 (str "id",
                  Relay.JStr <$> Relay.ProviderJson.id data)])).
  - repeat split.
  - apply FormController.validateForm_fst, Hv.
  - unfold Client.sendContactEmail, Client.online.
    rewrite (serve_forwarded corsHeaders env fetch
               (Client.request_of (App.formData st))
               (Client.body_of (App.formData st))
               (App.message (App.formData st)) eq_refl eq_refl
               (valid_complete _ Hv) (valid_email _ Hv) Hk eq_refl).
    rewrite Hf, Hd, Hok. reflexivity.
Qed.

End EndToEnd.

End Submission.


(** ** The relay, case by case *)

Module RelayCases.
Import Js Regex Relay Rules RelayFacts.
Local Open Scope relay_scope.

Lemma serve_unparsed (corsHeaders env : gmap jsstring jsstring)
    (fetch : jsstring -> Init.t -> option Fetched.t) (req : Request.t) :
  Request.method req = str "POST" ->
  Request.json req = None ->
  Relay.serve corsHeaders env fetch req =
    (Relay.internalError corsHeaders,
     [ConsoleError (str "Error sending email:") None]).
Proof.
  intros Hm Hj. unfold Relay.serve, Relay.attempt. rewrite Hm, Hj.
  rewrite post_is_not_options, post_is_post. reflexivity.
Qed.

Lemma truthy_opt_some (v : option jsstring) :
  truthy_opt v = true -> exists s, v = Some s /\ s <> [].
Proof.
  destruct v as [[|c s]|]; try discriminate. intros _.
  exists (c :: s). split; [reflexivity | discriminate].
Qed.

(** Every way through the handler, with the response rewritten in the goal. *)
Ltac serve_cases corsHeaders env fetch req :=
  destruct (decide (Request.method req = str "OPTIONS")) as [Ho|Ho];
  [ rewrite (serve_options corsHeaders env fetch req Ho)
  | destruct (decide (Request.method req = str "POST")) as [Hp|Hp];
    [ destruct (Request.json req) as [b|] eqn:Hj;
      [ destruct (complete b) eqn:Hc;
        [ destruct (test Relay.emailRegex (toString (EmailRequest.email b)))
            eqn:He;
          [ destruct (truthy_opt (env !! str "RESEND_API_KEY")) eqn:Hk;
            [ destruct (complete_message b Hc) as [txt Ht];
              rewrite (serve_forwarded corsHeaders env fetch req b txt
                         Hp Hj Hc He Hk Ht);
              destruct (fetch resendUrl (Relay.forwarded env b txt))
                as [response|] eqn:Hf;
              [ destruct (Fetched.json response) as [data|] eqn:Hd;
                [ destruct (Fetched.ok response) eqn:Hok | ]
              | ]
            | rewrite (serve_unconfigured corsHeaders env fetch req b
                         Hp Hj Hc He Hk) ]
          | rewrite (serve_invalid_email corsHeaders env fetch req b
                       Hp Hj Hc He) ]
        | rewrite (serve_missing corsHeaders env fetch req b Hp Hj Hc) ]
      | rewrite (serve_unparsed corsHeaders env fetch req Hp Hj) ]
    | rewrite (serve_not_allowed corsHeaders env fetch req Ho Hp) ] ].


(** X1: whatever the request, the environment and the provider, the handler
    answers with one of four status codes: 200, 400, 405 or 500. *)
Theorem serve_status_codes (corsHeaders env : gmap jsstring jsstring)
    (fetch : jsstring -> Init.t -> option Fetched.t) (req : Request.t) :
  Response.status (Relay.serve corsHeaders env fetch req).1 = 200
  \/ Response.status (Relay.serve corsHeaders env fetch req).1 = 400
  \/ Response.status (Relay.serve corsHeaders env fetch req).1 = 405
  \/ Response.status (Relay.serve corsHeaders env fetch req).1 = 500.
Proof.
  serve_cases corsHeaders env fetch req;
    cbn [fst Response.status Relay.json_response Relay.internalError]; auto.
Qed.



Lemma json_response_headers (corsHeaders : gmap jsstring jsstring) (n : N)
    (members : list (jsstring * option Json)) :
  Response.headers (Relay.json_response corsHeaders n members)
  = <[str "Content-Type" := str "application/json"]> corsHeaders.
Proof. reflexivity. Qed.

(** Apart from the answer to OPTIONS, every response is a JSON one. *)
Lemma serve_shape (corsHeaders env : gmap jsstring jsstring)
    (fetch : jsstring -> Init.t -> option Fetched.t) (req : Request.t) :
  (Request.method req = str "OPTIONS"
   /\ (Relay.serve corsHeaders env fetch req).1
      = Response.mk 200 corsHeaders None)
  \/ (Request.method req <> str "OPTIONS"
      /\ exists n members,
           (Relay.serve corsHeaders env fetch req).1
           = Relay.json_response corsHeaders n members).
Proof.
  serve_cases corsHeaders env fetch req; cbn [fst];
    solve [ left; split; [assumption | reflexivity]
          | right; split; [assumption | eexists _, _; reflexivity] ].
Qed.

(** X3: every response carries the cross-origin headers: each header of
    [corsHeaders] other than Content-Type is on the response with the same
    value, and nothing else is added. The answer to OPTIONS has exactly these
    headers and the [null] body; every other response has Content-Type
    application/json and a body. *)
Theorem cors_on_every_response (corsHeaders env : gmap jsstring jsstring)
    (fetch : jsstring -> Init.t -> option Fetched.t) (req : Request.t) :
  let r := (Relay.serve corsHeaders env fetch req).1 in
  (forall k, k <> str "Content-Type" ->
             Response.headers r !! k = corsHeaders !! k)
  /\ (Request.method req = str "OPTIONS" ->
      Response.headers r = corsHeaders /\ Response.body r = None)
  /\ (Request.method req <> str "OPTIONS" ->
      Response.headers r !! str "Content-Type"
      = Some (str "application/json")
      /\ Response.body r <> None).
Proof.
  cbv zeta.
  destruct (serve_shape corsHeaders env fetch req)
    as [[Ho ->]|[Ho (n & members & ->)]].
  - cbn [Response.headers Response.body]. split; [reflexivity|].
    split; [auto | contradiction].
  - rewrite json_response_headers. split; [|split].
    + intros k Hk. apply lookup_insert_ne. congruence.
    + contradiction.
    + intros _. split; [apply lookup_insert_eq | discriminate].
Qed.

Lemma cors_on_every_response_witness :
  Response.headers
    (Relay.serve Samples.cors ∅ Samples.accepting
       (Samples.post Samples.kim)).1
  !! str "Access-Control-Allow-Origin" = Some (str "*").
Proof.
  destruct (cors_on_every_response Samples.cors ∅ Samples.accepting
              (Samples.post Samples.kim)) as (H & _).
  rewrite H; [reflexivity|]. vm_compute. discriminate.
Defined.

Lemma content_type_not_authorization :
  str "Content-Type" <> str "Authorization".
Proof. vm_compute. discriminate. Qed.

(** X4: the provider is called at most once for a request, and only for a
    POST whose body has the four members, whose address passes the pattern,
    with a credential in the environment. The call goes to the provider's
    address by POST, with the credential as bearer token, and with the
    payload built from the members of the body. *)
Theorem provider_called_once_when_accepted
    (corsHeaders env : gmap jsstring jsstring)
    (fetch : jsstring -> Init.t -> option Fetched.t) (req : Request.t) :
  let l := fetched (Relay.serve corsHeaders env fetch req).2 in
  l = []
  \/ exists b text key,
       Request.method req = str "POST"
       /\ Request.json req = Some b
       /\ complete b = true
       /\ test Relay.emailRegex (toString (EmailRequest.email b)) = true
       /\ EmailRequest.message b = Some text
       /\ env !! str "RESEND_API_KEY" = Some key
       /\ key <> []
       /\ l = [(Relay.resendUrl, Relay.forwarded env b text)]
       /\ Init.method (Relay.forwarded env b text) = str "POST"
       /\ Init.headers (Relay.forwarded env b text) !! str "Authorization"
          = Some (str "Bearer " ++ key)
       /\ Init.body (Relay.forwarded env b text)
          = Relay.emailPayload (EmailRequest.name b) (EmailRequest.email b)
              (EmailRequest.subject b) text.
Proof.
  cbv zeta.
  serve_cases corsHeaders env fetch req; cbn [snd];
    try (left; reflexivity);
    right; destruct (truthy_opt_some _ Hk) as (key & Hkey & Hne);
    exists b, txt, key;
    repeat apply conj;
    first [ assumption
          | unfold Relay.forwarded, fetchInit; rewrite Hkey;
            cbn [Init.headers toString];
            rewrite lookup_insert_ne by apply content_type_not_authorization;
            apply lookup_singleton_eq
          | reflexivity ].
Qed.

(** X5: a 200 that is not the answer to OPTIONS is sent only after the
    provider has answered ok with a body that parses, to the one call made
    for this request; its body then has success true and the fixed text. *)
Theorem success_means_delivered (corsHeaders env : gmap jsstring jsstring)
    (fetch : jsstring -> Init.t -> option Fetched.t) (req : Request.t) :
  Request.method req <> str "OPTIONS" ->
  Response.status (Relay.serve corsHeaders env fetch req).1 = 200 ->
  exists b text response data,
    Request.json req = Some b
    /\ EmailRequest.message b = Some text
    /\ fetch Relay.resendUrl (Relay.forwarded env b text) = Some response
    /\ Fetched.ok response = true
    /\ Fetched.json response = Some data
    /\ Response.body (Relay.serve corsHeaders env fetch req).1
       = Some (stringify
                 [(str "success", Some (JBool true));
                  (str "message",
                   Some (JStr (str "메일이 성공적으로 전송되었습니다!")));
                  (str "id", JStr <$> ProviderJson.id data)]).
Proof.
  intros Hno.
  serve_cases corsHeaders env fetch req;
    cbn [fst Response.status Relay.json_response Relay.internalError
         Response.body];
    try contradiction; try discriminate.
  intros _. exists b, txt, response, data.
  repeat apply conj;
    [reflexivity | exact Ht | exact Hf | exact Hok | exact Hd | reflexivity].
Qed.

Lemma success_means_delivered_witness :
  exists data,
    Samples.accepting Relay.resendUrl
      (Relay.forwarded Samples.configured (Client.body_of Samples.kim)
         (App.message Samples.kim))
    = Some (Fetched.mk true (Some data)).
Proof.
  destruct (success_means_delivered Samples.cors Samples.configured
              Samples.accepting (Samples.post Samples.kim))
    as (b & txt & response & data & Hj & Ht & Hf & Hok & Hd & _).
  - vm_compute. discriminate.
  - vm_compute. reflexivity.
  - eexists. reflexivity.
Defined.

Lemma unknown_error_not_empty : str "Unknown error" <> [].
Proof. vm_compute. discriminate. Qed.

Lemma or_else_not_empty (a : option jsstring) (b : jsstring) :
  b <> [] -> or_else a b <> [].
Proof.
  intros Hb. unfold or_else. destruct a as [[|c s]|]; cbn [truthy];
    [exact Hb | discriminate | exact Hb].
Qed.

(** X6: when the provider answers not ok with a body that parses, the
    handler answers 500 with the members error, failed to send email, and
    details. The details are the provider's message when it has one that is
    not empty, the text unknown error otherwise, and are never empty; the
    provider's body goes to the console. *)
Theorem provider_refusal_reported (corsHeaders env : gmap jsstring jsstring)
    (fetch : jsstring -> Init.t -> option Fetched.t) (req : Request.t)
    (b : EmailRequest.t) (txt : jsstring) (response : Fetched.t)
    (data : ProviderJson.t) :
  Request.method req = str "POST" ->
  Request.json req = Some b ->
  complete b = true ->
  test Relay.emailRegex (toString (EmailRequest.email b)) = true ->
  truthy_opt (env !! str "RESEND_API_KEY") = true ->
  EmailRequest.message b = Some txt ->
  fetch Relay.resendUrl (Relay.forwarded env b txt) = Some response ->
  Fetched.ok response = false ->
  Fetched.json response = Some data ->
  let r := Relay.serve corsHeaders env fetch req in
  let details := or_else (ProviderJson.message data) (str "Unknown error") in
  Response.status r.1 = 500
  /\ Response.body r.1
     = Some [(str "error", JStr (str "Failed to send email"));
             (str "details", JStr details)]
  /\ details <> []
  /\ (forall m, ProviderJson.message data = Some m -> m <> [] -> details = m)
  /\ (ProviderJson.message data = None \/ ProviderJson.message data = Some []
      -> details = str "Unknown error")
  /\ r.2 = [Fetch Relay.resendUrl (Relay.forwarded env b txt);
            ConsoleError (str "Resend API error:") (Some data)].
Proof.
  intros Hm Hj Hc He Hk Ht Hf Hok Hd. cbv zeta.
  rewrite (serve_forwarded corsHeaders env fetch req b txt Hm Hj Hc He Hk Ht),
    Hf, Hd, Hok.
  cbn [fst snd Response.status Response.body Relay.json_response].
  split; [reflexivity|]. split; [reflexivity|].
  split; [apply or_else_not_empty, unknown_error_not_empty|].
  split; [|split; [|reflexivity]].
  - intros m -> Hne. destruct m; [contradiction | reflexivity].
  - intros [-> | ->]; reflexivity.
Qed.

Lemma provider_refusal_reported_witness :
  Response.body
    (Relay.serve Samples.cors Samples.configured (Cases.refusing None)
       (Samples.post Samples.kim)).1
  = Some [(str "error", JStr (str "Failed to send email"));
          (str "details", JStr (str "Unknown error"))].
Proof.
  destruct (provider_refusal_reported Samples.cors Samples.configured
              (Cases.refusing None) (Samples.post Samples.kim)
              (Client.body_of Samples.kim) (App.message Samples.kim)
              (Fetched.mk false (Some (ProviderJson.mk None None)))
              (ProviderJson.mk None None))
    as (_ & Hb & _); [vm_compute; reflexivity .. |].
  rewrite Hb. reflexivity.
Defined.

(** X7: whatever is thrown inside the handler is answered 500, internal
    server error, with nothing of the cause in the body: a POST whose body
    does not parse (the provider is then not called), a provider that cannot
    be reached, and a provider whose answer does not parse, ok or not. *)
Theorem exceptions_answered_500 (corsHeaders env : gmap jsstring jsstring)
    (fetch : jsstring -> Init.t -> option Fetched.t) (req : Request.t) :
  let r := Relay.serve corsHeaders env fetch req in
  let generic :=
    Response.mk 500
      (<[str "Content-Type" := str "application/json"]> corsHeaders)
      (Some [(str "error", JStr (str "Internal server error"));
             (str "message", JStr (str "메일 전송 중 오류가 발생했습니다."))]) in
  (Request.method req = str "POST" ->
   Request.json req = None ->
   r = (generic, [ConsoleError (str "Error sending email:") None]))
  /\ (forall b txt,
        Request.method req = str "POST" ->
        Request.json req = Some b ->
        complete b = true ->
        test Relay.emailRegex (toString (EmailRequest.email b)) = true ->
        truthy_opt (env !! str "RESEND_API_KEY") = true ->
        EmailRequest.message b = Some txt ->
        fetch Relay.resendUrl (Relay.forwarded env b txt) = None
        \/ (exists response,
              fetch Relay.resendUrl (Relay.forwarded env b txt) = Some response
              /\ Fetched.json response = None) ->
        r = (generic,
             [Fetch Relay.resendUrl (Relay.forwarded env b txt);
              ConsoleError (str "Error sending email:") None])).
Proof.
  cbv zeta. split.
  - intros Hm Hj. rewrite (serve_unparsed corsHeaders env fetch req Hm Hj).
    reflexivity.
  - intros b txt Hm Hj Hc He Hk Ht Hf.
    rewrite (serve_forwarded corsHeaders env fetch req b txt Hm Hj Hc He Hk Ht).
    destruct Hf as [-> | (response & -> & ->)]; reflexivity.
Qed.

Lemma exceptions_answered_500_witness :
  Response.status
    (Relay.serve Samples.cors Samples.configured Samples.accepting
       Cases.garbage).1 = 500
  /\ (Relay.serve Samples.cors Samples.configured Cases.unreachable
        (Samples.post Samples.kim)).2
     = [Fetch Relay.resendUrl
          (Relay.forwarded Samples.configured (Client.body_of Samples.kim)
             (App.message Samples.kim));
        ConsoleError (str "Error sending email:") None].
Proof.
  destruct (exceptions_answered_500 Samples.cors Samples.configured
              Samples.accepting Cases.garbage) as (Hg & _).
  destruct (exceptions_answered_500 Samples.cors Samples.configured
              Cases.unreachable (Samples.post Samples.kim)) as (_ & Hu).
  split.
  - rewrite Hg; reflexivity.
  - rewrite (Hu (Client.body_of Samples.kim) (App.message Samples.kim));
      [reflexivity | vm_compute; reflexivity .. | left; reflexivity].
Defined.

(** X8: when the provider answers ok without an identifier, the handler
    still answers 200, and the body has the members success and message
    only: the id member is left out. *)
Theorem missing_identifier_left_out (corsHeaders env : gmap jsstring jsstring)
    (fetch : jsstring -> Init.t -> option Fetched.t) (req : Request.t)
    (b : EmailRequest.t) (txt : jsstring) (response : Fetched.t)
    (data : ProviderJson.t) :
  Request.method req = str "POST" ->
  Request.json req = Some b ->
  complete b = true ->
  test Relay.emailRegex (toString (EmailRequest.email b)) = true ->
  truthy_opt (env !! str "RESEND_API_KEY") = true ->
  EmailRequest.message b = Some txt ->
  fetch Relay.resendUrl (Relay.forwarded env b txt) = Some response ->
  Fetched.ok response = true ->
  Fetched.json response = Some data ->
  ProviderJson.id data = None ->
  let r := Relay.serve corsHeaders env fetch req in
  Response.status r.1 = 200
  /\ Response.body r.1
     = Some [(str "success", JBool true);
             (str "message", JStr (str "메일이 성공적으로 전송되었습니다!"))].
Proof.
  intros Hm Hj Hc He Hk Ht Hf Hok Hd Hid. cbv zeta.
  rewrite (serve_forwarded corsHeaders env fetch req b txt Hm Hj Hc He Hk Ht),
    Hf, Hd, Hok.
  cbn [fst Response.status Response.body Relay.json_response]. rewrite Hid.
  split; reflexivity.
Qed.

Lemma missing_identifier_left_out_witness :
  Response.status
    (Relay.serve Samples.cors Samples.configured Cases.anonymous
       (Samples.post Samples.kim)).1 = 200.
Proof.
  destruct (missing_identifier_left_out Samples.cors Samples.configured
              Cases.anonymous (Samples.post Samples.kim)
              (Client.body_of Samples.kim) (App.message Samples.kim)
              (Fetched.mk true (Some (ProviderJson.mk None None)))
              (ProviderJson.mk None None))
    as (Hs & _); [vm_compute; reflexivity .. |].
  exact Hs.
Defined.







(** X10: what the form accepts, the relay accepts. For a form that passes
    [validateForm], a POST carrying its four values as they are is answered
    neither 400 nor 405, and with a credential in the environment the
    provider is called with the payload built from these values. *)
Theorem valid_form_passes_relay (corsHeaders env : gmap jsstring jsstring)
    (fetch : jsstring -> Init.t -> option Fetched.t) (st : App.State) :
  (App.validateForm st (App.start st)).1 = true ->
  let d := App.formData st in
  let b := EmailRequest.mk (Some (App.name d)) (Some (App.email d))
             (Some (App.subject d)) (Some (App.message d)) in
  let r := Relay.serve corsHeaders env fetch
             (Request.mk (str "POST") (Some b)) in
  Response.status r.1 <> 400
  /\ Response.status r.1 <> 405
  /\ (truthy_opt (env !! str "RESEND_API_KEY") = true ->
      fetched r.2 = [(Relay.resendUrl, Relay.forwarded env b (App.message d))]).
Proof.
  intros Hv. apply FormController.validateForm_fst in Hv. cbv zeta.
  pose proof (Submission.valid_complete _ Hv) as Hc.
  pose proof (Submission.valid_email _ Hv) as He.
  unfold Client.body_of in Hc.
  split; [|split].
  - apply (serve_accepted corsHeaders env fetch (Request.mk (str "POST") _) _
             eq_refl eq_refl Hc He).
  - destruct (truthy_opt (env !! str "RESEND_API_KEY")) eqn:Hk.
    + rewrite (serve_forwarded corsHeaders env fetch
                 (Request.mk (str "POST") _) _ (App.message (App.formData st))
                 eq_refl eq_refl Hc He Hk eq_refl).
      destruct (fetch Relay.resendUrl _) as [response|]; [|discriminate].
      destruct (Fetched.json response), (Fetched.ok response); discriminate.
    + rewrite (serve_unconfigured corsHeaders env fetch
                 (Request.mk (str "POST") _) _ eq_refl eq_refl Hc He Hk).
      discriminate.
  - intros Hk.
    apply (serve_fetches corsHeaders env fetch (Request.mk (str "POST") _) _
             (App.message (App.formData st)) eq_refl eq_refl Hc He Hk eq_refl).
Qed.

Lemma valid_form_passes_relay_witness :
  Response.status
    (Relay.serve Samples.cors ∅ Cases.unreachable
       (Request.mk (str "POST")
          (Some (EmailRequest.mk (Some (App.name Samples.kim))
                   (Some (App.email Samples.kim))
                   (Some (App.subject Samples.kim))
                   (Some (App.message Samples.kim)))))).1 <> 400.
Proof.
  destruct (valid_form_passes_relay Samples.cors ∅ Cases.unreachable
              Samples.filled) as (H & _).
  - vm_compute. reflexivity.
  - exact H.
Defined.

End RelayCases.

(** ** The form controller, further *)

Module ControllerCases.
Import Js Regex App Rules JsFacts RegexFacts EmailFacts AppFacts.

Lemma part_no_space (s : jsstring) (c : N) :
  part s -> c ∈ s -> isWhiteSpace c = false.
Proof.
  intros [_ H] Hin. rewrite Forall_forall in H. specialize (H _ Hin).
  unfold notSpaceAt in H. destruct (isWhiteSpace c); [discriminate|reflexivity].
Qed.

Lemma shaped_no_space (s : jsstring) (c : N) :
  shaped s -> c ∈ s -> isWhiteSpace c = false.
Proof.
  intros (a & b & d & -> & Ha & Hb & Hd) Hin.
  apply elem_of_app in Hin as [Hin|Hin]; [exact (part_no_space a c Ha Hin)|].
  apply elem_of_cons in Hin as [->|Hin]; [reflexivity|].
  apply elem_of_app in Hin as [Hin|Hin]; [exact (part_no_space b c Hb Hin)|].
  apply elem_of_cons in Hin as [->|Hin]; [reflexivity|].
  exact (part_no_space d c Hd Hin).
Qed.

Lemma filter_absent (x : N) (s : jsstring) :
  x ∉ s -> filter (fun c : N => c = x) s = [].
Proof.
  induction s as [|c s IH]; intros Hs; [reflexivity|].
  rewrite filter_cons, decide_False.
  - apply IH. intros Hin. apply Hs. right. exact Hin.
  - intros ->. apply Hs. left.
Qed.

Lemma part_length (s : jsstring) : part s -> (1 <= length s)%nat.
Proof. intros [Hne _]. destruct s; [contradiction | cbn; lia]. Qed.

(** X11: an address that [validateEmail] accepts holds no whitespace
    anywhere, holds exactly one [@], and has at least five code units. *)
Theorem accepted_address_facts (s : jsstring) :
  validateEmail s = true ->
  (forall c, c ∈ s -> isWhiteSpace c = false)
  /\ length (filter (fun c : N => c = 0x40) s) = 1%nat
  /\ (5 <= length s)%nat.
Proof.
  intros Hv. apply test_pattern in Hv.
  split; [intros c; apply shaped_no_space, Hv|].
  destruct Hv as (a & b & d & -> & Ha & Hb & Hd).
  pose proof (part_length a Ha). pose proof (part_length b Hb).
  pose proof (part_length d Hd).
  split.
  - rewrite filter_app, filter_cons, decide_True by reflexivity.
    rewrite filter_app, filter_cons, decide_False by discriminate.
    rewrite (filter_absent 0x40 a (part_no_at a Ha)),
      (filter_absent 0x40 b (part_no_at b Hb)),
      (filter_absent 0x40 d (part_no_at d Hd)).
    reflexivity.
  - rewrite length_app. cbn [length]. rewrite length_app. cbn [length]. lia.
Qed.

Lemma accepted_address_facts_witness :
  length (filter (fun c : N => c = 0x40) (str "kim@example.com")) = 1%nat.
Proof.
  destruct (accepted_address_facts (str "kim@example.com")) as (_ & H & _).
  - vm_compute. reflexivity.
  - exact H.
Defined.

(** X12: the address is tested as typed, not trimmed. When the address is
    not empty once trimmed and holds a whitespace character anywhere, also
    in front or at the end, [validateForm] records the invalid-format text
    for it and returns [false]. *)
Theorem address_with_whitespace_is_invalid (st : State) (c : N) :
  c ∈ email (formData st) ->
  isWhiteSpace c = true ->
  truthy (trim (email (formData st))) = true ->
  errors (after st (validateForm st)) !! Email = Some (Some emailInvalid)
  /\ (validateForm st (start st)).1 = false.
Proof.
  intros Hin Hws Hne.
  assert (Hbad : validateEmail (email (formData st)) = false).
  { destruct (validateEmail (email (formData st))) eqn:Hv; [|reflexivity].
    apply test_pattern in Hv.
    rewrite (shaped_no_space _ c Hv Hin) in Hws. discriminate. }
  assert (Hviol : violation Email (get Email (formData st))
                  = Some InvalidFormatError).
  { unfold violation. cbn [get]. rewrite Hne, Hbad. reflexivity. }
  unfold after.
  destruct (validateForm_run st (start st)) as (e & Hrun & He).
  rewrite Hrun. cbn [fst snd store errors]. split.
  - rewrite He. unfold prescribed. rewrite Hviol. reflexivity.
  - destruct (size e =? 0)%nat eqn:Hs; [|reflexivity].
    apply (size_zero_valid (formData st) e He) in Hs.
    specialize (Hs Email). congruence.
Qed.

Lemma address_with_whitespace_is_invalid_witness :
  errors (after Cases.padded_address (validateForm Cases.padded_address))
  !! Email = Some (Some emailInvalid).
Proof.
  destruct (address_with_whitespace_is_invalid Cases.padded_address 0x20)
    as (H & _).
  - refine (bool_decide_unpack _ _). vm_compute. exact I.
  - reflexivity.
  - vm_compute. reflexivity.
  - exact H.
Defined.

Lemma trimStart_app_blank (p s : jsstring) :
  Forall (fun c => isWhiteSpace c = true) p -> trimStart (p ++ s) = trimStart s.
Proof.
  induction 1 as [|c p Hc _ IH]; cbn [app trimStart]; [reflexivity|].
  rewrite Hc. exact IH.
Qed.

Lemma trimStart_app (v q : jsstring) :
  trimStart (v ++ q)
  = match trimStart v with
    | [] => trimStart q
    | _ :: _ => trimStart v ++ q
    end.
Proof.
  induction v as [|c v IH]; cbn [app trimStart]; [reflexivity|].
  destruct (isWhiteSpace c); [exact IH | reflexivity].
Qed.

Lemma trimEnd_app_blank (s q : jsstring) :
  Forall (fun c => isWhiteSpace c = true) q -> trimEnd (s ++ q) = trimEnd s.
Proof.
  intros Hq. unfold trimEnd. rewrite rev_app_distr.
  rewrite trimStart_app_blank; [reflexivity|]. apply Forall_rev, Hq.
Qed.

(** Whitespace around a string is what [trim] removes. *)
Lemma trim_pad (p v q : jsstring) :
  Forall (fun c => isWhiteSpace c = true) p ->
  Forall (fun c => isWhiteSpace c = true) q ->
  trim (p ++ v ++ q) = trim v.
Proof.
  intros Hp Hq. unfold trim.
  rewrite (trimStart_app_blank p _ Hp), trimStart_app.
  destruct (trimStart v) as [|c l] eqn:Hv.
  - rewrite (trimStart_blank q Hq). reflexivity.
  - apply trimEnd_app_blank, Hq.
Qed.

Lemma violation_pad (f : Field) (p v q : jsstring) :
  f <> Email ->
  Forall (fun c => isWhiteSpace c = true) p ->
  Forall (fun c => isWhiteSpace c = true) q ->
  violation f (p ++ v ++ q) = violation f v.
Proof.
  intros Hf Hp Hq. destruct f; try contradiction; unfold violation;
    rewrite (trim_pad p v q Hp Hq); reflexivity.
Qed.

Lemma get_set_eq (f : Field) (v : jsstring) (d : FormData) :
  get f (set f v d) = v.
Proof. destruct f; reflexivity. Qed.

Lemma get_set_ne (f g : Field) (v : jsstring) (d : FormData) :
  g <> f -> get g (set f v d) = get g d.
Proof. destruct f, g; intros H; try reflexivity; contradiction. Qed.

(** X13: the name, the subject and the message are judged on their trimmed
    value. Whitespace typed in front of or behind one of them changes
    neither the errors that [validateForm] stores nor what it returns. *)
Theorem surrounding_whitespace_ignored (st : State) (f : Field)
    (p q : jsstring) :
  f <> Email ->
  Forall (fun c => isWhiteSpace c = true) p ->
  Forall (fun c => isWhiteSpace c = true) q ->
  let padded :=
    mkState (set f (p ++ get f (formData st) ++ q) (formData st))
      (errors st) (status st) (statusMessage st) in
  errors (after padded (validateForm padded))
  = errors (after st (validateForm st))
  /\ (validateForm padded (start padded)).1 = (validateForm st (start st)).1.
Proof.
  intros Hf Hp Hq. cbv zeta. unfold after.
  destruct (validateForm_run st (start st)) as (e & -> & He).
  destruct (validateForm_run
              (mkState (set f (p ++ get f (formData st) ++ q) (formData st))
                 (errors st) (status st) (statusMessage st))
              (start (mkState
                        (set f (p ++ get f (formData st) ++ q) (formData st))
                        (errors st) (status st) (statusMessage st))))
    as (e' & -> & He').
  cbn [fst snd store errors formData] in *.
  assert (e' = e) as ->; [|split; reflexivity].
  apply map_eq. intros g. rewrite He, He'. unfold prescribed.
  destruct (decide (g = f)) as [->|Hg].
  - rewrite get_set_eq, (violation_pad f p _ q Hf Hp Hq). reflexivity.
  - rewrite (get_set_ne f g _ _ Hg). reflexivity.
Qed.

Lemma surrounding_whitespace_ignored_witness :
  (validateForm
     (mkState (set Name (str " " ++ str "Kim" ++ str "  ") Samples.kim)
        ∅ idle [])
     (start (mkState (set Name (str " " ++ str "Kim" ++ str "  ") Samples.kim)
               ∅ idle []))).1
  = (validateForm Samples.filled (start Samples.filled)).1.
Proof.
  destruct (surrounding_whitespace_ignored Samples.filled Name
              (str " ") (str "  ")) as (_ & H).
  - discriminate.
  - refine (bool_decide_unpack _ _). vm_compute. exact I.
  - refine (bool_decide_unpack _ _). vm_compute. exact I.
  - exact H.
Defined.

(** What [handleInputChange] leaves. *)
Lemma handleInputChange_run (st : State) (f : Field) (v : jsstring) :
  after st (handleInputChange st f v)
  = mkState (set f v (formData st))
      (if truthy_opt (read (errors st) f)
       then <[f := None]> (errors st) else errors st)
      (status st) (statusMessage st).
Proof.
  unfold after, handleInputChange, setFormData, setErrors, start.
  cbn [bind update emit ret store log formData errors status statusMessage
       fst snd].
  destruct (truthy_opt (read (errors st) f));
    cbn [bind update emit ret store log formData errors status statusMessage
         fst snd]; reflexivity.
Qed.

Lemma resetStatus_run (st : State) :
  after st resetStatus = mkState (formData st) (errors st) idle [].
Proof. reflexivity. Qed.

Lemma read_insert_ne (e : FormErrors) (f g : Field) (v : option jsstring) :
  g <> f -> read (<[f := v]> e) g = read e g.
Proof. intros H. unfold read. rewrite lookup_insert_ne by congruence. reflexivity. Qed.

Lemma read_insert_eq (e : FormErrors) (f : Field) (v : option jsstring) :
  read (<[f := v]> e) f = v.
Proof. unfold read. rewrite lookup_insert_eq. reflexivity. Qed.

Lemma set_set_ne (f g : Field) (v w : jsstring) (d : FormData) :
  f <> g -> set g w (set f v d) = set f v (set g w d).
Proof. destruct f, g; intros H; try reflexivity; contradiction. Qed.

Lemma set_set_eq (f : Field) (v w : jsstring) (d : FormData) :
  set f w (set f v d) = set f w d.
Proof. destruct f; reflexivity. Qed.

(** X14: typing into two different fields, one after the other, leaves the
    same state in either order; typing twice into one field leaves what
    typing the second value alone leaves. *)
Theorem edits_commute (st : State) (f g : Field) (v w : jsstring) :
  (f <> g ->
   Session.run st [Session.Change f v; Session.Change g w]
   = Session.run st [Session.Change g w; Session.Change f v])
  /\ Session.run st [Session.Change f v; Session.Change f w]
     = Session.run st [Session.Change f w].
Proof.
  unfold Session.run. cbn [fold_left Session.dispatch].
  rewrite !handleInputChange_run.
  cbn [formData errors status statusMessage]. split.
  - intros Hne.
    destruct (truthy_opt (read (errors st) f)) eqn:Hf;
      destruct (truthy_opt (read (errors st) g)) eqn:Hg;
      rewrite ?read_insert_ne by congruence; rewrite ?Hf, ?Hg;
      rewrite (set_set_ne f g v w _ Hne); try reflexivity.
    rewrite (insert_insert_ne (errors st) f g) by exact Hne. reflexivity.
  - rewrite set_set_eq.
    destruct (truthy_opt (read (errors st) f)) eqn:Hf.
    + rewrite read_insert_eq. reflexivity.
    + rewrite Hf. reflexivity.
Qed.

Lemma edits_commute_witness :
  Session.run Samples.two_errors
    [Session.Change Name (str "K"); Session.Change Email (str "k@")]
  = Session.run Samples.two_errors
      [Session.Change Email (str "k@"); Session.Change Name (str "K")].
Proof.
  destruct (edits_commute Samples.two_errors Name Email (str "K") (str "k@"))
    as (H & _).
  apply H. discriminate.
Defined.

Lemma prescribed_text (d : FormData) (f : Field) (v : jsstring) :
  prescribed d f = Some (Some v) -> exists k, v = text f k.
Proof.
  unfold prescribed. destruct (violation f (get f d)) as [k|]; [|discriminate].
  intros [= <-]. exists k. reflexivity.
Qed.

Lemma dispatch_coherent (st : State) (a : Session.Action) :
  Session.coherent st -> Session.coherent (Session.dispatch st a).
Proof.
  intros [Herr Hmsg]. destruct a as [f v|outcome|]; cbn [Session.dispatch].
  - rewrite handleInputChange_run. split; cbn [errors status statusMessage].
    + intros g x. destruct (truthy_opt (read (errors st) f)); [|apply Herr].
      destruct (decide (g = f)) as [->|Hg].
      * rewrite lookup_insert_eq. discriminate.
      * rewrite lookup_insert_ne by congruence. apply Herr.
    + exact Hmsg.
  - unfold after.
    destruct (handleSubmit_run unit (fun _ => outcome) st) as (e & He & ->).
    assert (Hnew : forall f v, e !! f = Some (Some v) -> exists k, v = text f k).
    { intros f v Hf. rewrite He in Hf. exact (prescribed_text _ f v Hf). }
    destruct (size e =? 0)%nat; [destruct outcome|];
      (split; cbn [snd store errors status statusMessage];
       [exact Hnew | first [reflexivity | exact Hmsg]]).
  - rewrite resetStatus_run. split; [exact Herr | reflexivity].
Qed.

Lemma initial_coherent : Session.coherent initial.
Proof.
  split; [|reflexivity]. intros f v H. unfold initial in H.
  cbn [errors] in H. rewrite lookup_empty in H. discriminate.
Qed.

Lemma run_coherent (l : list Session.Action) (st : State) :
  Session.coherent st -> Session.coherent (Session.run st l).
Proof.
  revert st. induction l as [|a l IH]; intros st Hst; [exact Hst|].
  apply (IH (Session.dispatch st a)), dispatch_coherent, Hst.
Qed.

(** X15: in every state that the component reaches from its first render by
    typing, submitting (whichever way the mail helper settles) and
    dismissing, every text held in the errors is one of the texts of the
    field it is held for, the status is not loading, and the status message
    is empty when idle, the success text on success and the failure text on
    error. *)
Theorem sessions_stay_coherent :
  Session.coherent initial
  /\ (forall st a, Session.coherent st ->
                   Session.coherent (Session.dispatch st a))
  /\ (forall l, Session.coherent (Session.run initial l)).
Proof.
  split; [exact initial_coherent|]. split; [exact dispatch_coherent|].
  intros l. apply run_coherent, initial_coherent.
Qed.

Lemma sessions_stay_coherent_witness :
  Session.coherent
    (Session.dispatch initial (Session.Change Name (str "Kim"))).
Proof.
  destruct sessions_stay_coherent as (Hi & Hd & _).
  apply Hd. exact Hi.
Defined.

Lemma same_form_same_verdict (st st' : State) (w w' : World) :
  formData st' = formData st ->
  (validateForm st' w').1 = (validateForm st w).1.
Proof.
  intros Hd.
  destruct (validateForm st' w').1 eqn:Hv'; destruct (validateForm st w).1 eqn:Hv;
    try reflexivity.
  - apply FormController.validateForm_fst in Hv'. rewrite Hd in Hv'.
    apply (FormController.validateForm_fst st w) in Hv'. congruence.
  - apply FormController.validateForm_fst in Hv. rewrite <- Hd in Hv.
    apply (FormController.validateForm_fst st' w') in Hv. congruence.
Qed.

Lemma dispatch_rejected (st : State) (reason : jsstring) :
  (validateForm st (start st)).1 = true ->
  Session.dispatch st (Session.Submit (Rejected reason))
  = mkState (formData st) ∅ error failureMessage.
Proof.
  intros Hv. cbn [Session.dispatch]. unfold after.
  rewrite (Submission.handleSubmit_rejected unit _ st reason Hv eq_refl).
  reflexivity.
Qed.

Lemma dispatch_fulfilled (st : State) :
  (validateForm st (start st)).1 = true ->
  Session.dispatch st (Session.Submit (Fulfilled tt))
  = mkState emptyForm ∅ success successMessage.
Proof.
  intros Hv. cbn [Session.dispatch]. unfold after.
  rewrite (Submission.handleSubmit_fulfilled unit _ st tt Hv eq_refl).
  reflexivity.
Qed.

Lemma sent_fulfilled (st : State) :
  (validateForm st (start st)).1 = true ->
  sent (calls st (handleSubmit unit (fun _ => Fulfilled tt) st))
  = [formData st].
Proof.
  intros Hv. unfold calls.
  rewrite (Submission.handleSubmit_fulfilled unit _ st tt Hv eq_refl).
  reflexivity.
Qed.

(** X16: after a failed submission the form can be sent again as it stands.
    Dismissing the banner gives back the form, idle; submitting again, with
    or without dismissing first, hands the same form to the mail helper, and
    when the helper then succeeds the form ends emptied, in the success
    status. *)
Theorem retry_after_failure (st : State) (reason : jsstring) :
  (validateForm st (start st)).1 = true ->
  let failed := Session.dispatch st (Session.Submit (Rejected reason)) in
  let dismissed := Session.dispatch failed Session.Reset in
  dismissed = mkState (formData st) ∅ idle []
  /\ sent (calls dismissed
             (handleSubmit unit (fun _ => Fulfilled tt) dismissed))
     = [formData st]
  /\ Session.dispatch dismissed (Session.Submit (Fulfilled tt))
     = mkState emptyForm ∅ success successMessage
  /\ Session.dispatch failed (Session.Submit (Fulfilled tt))
     = mkState emptyForm ∅ success successMessage.
Proof.
  intros Hv. cbv zeta. rewrite (dispatch_rejected st reason Hv).
  change (Session.dispatch ?s Session.Reset) with (after s resetStatus).
  rewrite resetStatus_run. cbn [formData errors status statusMessage].
  set (failed := mkState (formData st) ∅ error failureMessage).
  set (dismissed := mkState (formData st) ∅ idle []).
  assert (Hd : (validateForm dismissed (start dismissed)).1 = true).
  { rewrite <- Hv. apply same_form_same_verdict. reflexivity. }
  assert (Hf : (validateForm failed (start failed)).1 = true).
  { rewrite <- Hv. apply same_form_same_verdict. reflexivity. }
  rewrite (sent_fulfilled dismissed Hd), (dispatch_fulfilled dismissed Hd),
    (dispatch_fulfilled failed Hf).
  repeat split.
Qed.

Lemma retry_after_failure_witness :
  Session.run Samples.filled
    [Session.Submit (Rejected (str "boom")); Session.Reset;
     Session.Submit (Fulfilled tt)]
  = mkState emptyForm ∅ success successMessage.
Proof.
  destruct (retry_after_failure Samples.filled (str "boom"))
    as (_ & _ & H & _).
  - vm_compute. reflexivity.
  - exact H.
Defined.

Lemma empty_form_prescribed (f : Field) :
  prescribed emptyForm f = Some (Some (text f RequiredFieldError)).
Proof. destruct f; vm_compute; reflexivity. Qed.

(** X17: once a submission has succeeded, submitting again without typing
    sends nothing: the emptied form fails [validateForm], the required-field
    text is recorded for each of the four fields, the mail helper is not
    called and the success status with its text stays. *)
Theorem emptied_form_is_not_sent_again (st : State)
    (outcome : Settled unit) :
  (validateForm st (start st)).1 = true ->
  let done := Session.dispatch st (Session.Submit (Fulfilled tt)) in
  let h := handleSubmit unit (fun _ => outcome) done in
  sent (calls done h) = []
  /\ status (after done h) = success
  /\ statusMessage (after done h) = successMessage
  /\ formData (after done h) = emptyForm
  /\ forall f, errors (after done h) !! f
               = Some (Some (text f RequiredFieldError)).
Proof.
  intros Hv. cbv zeta. rewrite (dispatch_fulfilled st Hv).
  unfold after, calls.
  destruct (handleSubmit_run unit (fun _ => outcome)
              (mkState emptyForm ∅ success successMessage))
    as (e & He & ->).
  cbn [formData status statusMessage] in *.
  destruct (size e =? 0)%nat eqn:Hs.
  - apply (size_zero_valid emptyForm e He) in Hs.
    specialize (Hs Name). apply prescribed_none in Hs.
    rewrite empty_form_prescribed in Hs. discriminate.
  - cbn [snd store log formData errors status statusMessage].
    repeat split. intros f. rewrite He. apply empty_form_prescribed.
Qed.

Lemma emptied_form_is_not_sent_again_witness :
  sent (calls (Session.dispatch Samples.filled (Session.Submit (Fulfilled tt)))
          (handleSubmit unit (fun _ => Fulfilled tt)
             (Session.dispatch Samples.filled
                (Session.Submit (Fulfilled tt))))) = [].
Proof.
  destruct (emptied_form_is_not_sent_again Samples.filled (Fulfilled tt))
    as (H & _).
  - vm_compute. reflexivity.
  - exact H.
Defined.

(** X18: a submission ends in one of three ways, and no other. Either
    [validateForm] refused: nothing is handed to the mail helper, the form
    and the status stay. Or the helper was handed the rendered form, once,
    and fulfilled: the form is emptied and the status is success. Or it was
    handed the rendered form, once, and rejected: the form stays and the
    status is error. So the form is emptied only after the helper
    fulfilled. *)
Theorem submit_has_three_outcomes (Reply : Type)
    (send : FormData -> Settled Reply) (st : State) :
  let h := handleSubmit Reply send st in
  ((validateForm st (start st)).1 = false
   /\ sent (calls st h) = []
   /\ formData (after st h) = formData st
   /\ status (after st h) = status st)
  \/ ((validateForm st (start st)).1 = true
      /\ (exists r, send (formData st) = Fulfilled r)
      /\ sent (calls st h) = [formData st]
      /\ formData (after st h) = emptyForm
      /\ status (after st h) = success)
  \/ ((validateForm st (start st)).1 = true
      /\ (exists reason, send (formData st) = Rejected reason)
      /\ sent (calls st h) = [formData st]
      /\ formData (after st h) = formData st
      /\ status (after st h) = error).
Proof.
  cbv zeta. unfold after, calls.
  destruct (handleSubmit_run Reply send st) as (e & He & ->).
  destruct (validateForm_run st (start st)) as (e0 & -> & He0).
  assert (e0 = e) as -> by (apply map_eq; intros f; rewrite He, He0; reflexivity).
  cbn [fst]. destruct (size e =? 0)%nat.
  - destruct (send (formData st)) as [r|reason] eqn:Hs.
    + right. left. repeat split. exists r. reflexivity.
    + right. right. repeat split. exists reason. reflexivity.
  - left. repeat split.
Qed.

Lemma input_of_render (st : State) (f : Field) :
  Render.inputOf (Render.render st) f = Render.renderInput st f.
Proof. destruct f; reflexivity. Qed.

(** X19: once a field has been typed into, its input shows the value typed,
    as typed, with the plain border and no error paragraph, whatever was
    recorded for it before; the inputs of the other fields, the button and
    the banners are rendered as before. *)
Theorem edited_field_shows_no_error (st : State) (f : Field) (v : jsstring) :
  let st' := Session.dispatch st (Session.Change f v) in
  Render.inputOf (Render.render st') f
  = Render.mkInput v (str "border-white/30") None
  /\ (forall g, g <> f ->
        Render.inputOf (Render.render st') g
        = Render.inputOf (Render.render st) g)
  /\ Render.disabled (Render.render st') = Render.disabled (Render.render st)
  /\ Render.successBanner (Render.render st')
     = Render.successBanner (Render.render st)
  /\ Render.errorBanner (Render.render st')
     = Render.errorBanner (Render.render st).
Proof.
  cbv zeta. cbn [Session.dispatch]. rewrite handleInputChange_run.
  split; [|split; [|repeat split]].
  - rewrite input_of_render. unfold Render.renderInput, Render.shown.
    cbn [formData errors]. rewrite get_set_eq.
    destruct (truthy_opt (read (errors st) f)) eqn:Hf.
    + rewrite read_insert_eq. reflexivity.
    + rewrite Hf. reflexivity.
  - intros g Hg. rewrite !input_of_render.
    unfold Render.renderInput. cbn [formData errors].
    rewrite (get_set_ne f g v _ Hg).
    destruct (truthy_opt (read (errors st) f)); [|reflexivity].
    rewrite (read_insert_ne _ f g None Hg). reflexivity.
Qed.

Lemma edited_field_shows_no_error_witness :
  Render.alert
    (Render.inputOf
       (Render.render
          (Session.dispatch Samples.two_errors
             (Session.Change Name (str "K")))) Email)
  = Render.alert
      (Render.inputOf (Render.render Samples.two_errors) Email).
Proof.
  destruct (edited_field_shows_no_error Samples.two_errors Name (str "K"))
    as (_ & H & _).
  rewrite (H Email); [reflexivity | discriminate].
Defined.

Lemma borders_differ : str "border-white/30" <> str "border-red-400".
Proof. vm_compute. discriminate. Qed.

Lemma text_truthy (f : Field) (k : ErrorKind) : truthy (text f k) = true.
Proof. destruct f, k; vm_compute; reflexivity. Qed.

(** X20: after [validateForm], what is rendered under each field is its
    verdict: the paragraph holds the text of the field's violation and the
    border is the red one when the field has a violation; there is no
    paragraph and the border is the plain one when it has none. The inputs
    still show the values as typed. *)
Theorem shown_errors_are_the_violations (st : State) (f : Field) :
  let i := Render.inputOf (Render.render (after st (validateForm st))) f in
  Render.value i = get f (formData st)
  /\ Render.alert i = text f <$> violation f (get f (formData st))
  /\ (Render.border i = str "border-red-400"
      <-> violation f (get f (formData st)) <> None)
  /\ (Render.border i = str "border-white/30"
      <-> violation f (get f (formData st)) = None).
Proof.
  cbv zeta. rewrite input_of_render. unfold after.
  destruct (validateForm_run st (start st)) as (e & -> & He).
  unfold Render.renderInput, Render.shown, read.
  cbn [snd store formData errors Render.value Render.alert Render.border
       start].
  rewrite He. unfold prescribed.
  destruct (violation f (get f (formData st))) as [k|];
    cbn [truthy_opt fmap option_fmap option_map].
  - rewrite text_truthy. split; [reflexivity|]. split; [reflexivity|].
    split; split; intros H; try reflexivity;
      try (symmetry in H; destruct (borders_differ H)); discriminate.
  - split; [reflexivity|]. split; [reflexivity|].
    split; split; intros H; try reflexivity;
      try (destruct (borders_differ H)); contradiction.
Qed.

Lemma shown_errors_are_the_violations_witness :
  Render.border
    (Render.inputOf
       (Render.render (after Samples.filled (validateForm Samples.filled)))
       Name)
  = str "border-white/30".
Proof.
  destruct (shown_errors_are_the_violations Samples.filled Name)
    as (_ & _ & _ & H).
  apply H. vm_compute. reflexivity.
Defined.

Lemma decide_status (a b : SubmissionStatus) :
  @bool_decide (a = b) (Render.SubmissionStatus_eq_dec a b)
  = match a, b with
    | idle, idle | loading, loading | success, success | error, error => true
    | _, _ => false
    end.
Proof. destruct a, b; reflexivity. Qed.

(** X21: in every state the component reaches once the mail helper has
    settled, the submit button is enabled and carries the send label, and at
    most one banner is shown: none when idle, the success banner with the
    success text, or the error banner with the failure text. *)
Theorem banners_at_rest (l : list Session.Action) :
  let st := Session.run initial l in
  let v := Render.render st in
  Render.disabled v = false
  /\ Render.label v = str "메시지 전송하기"
  /\ match Render.successBanner v, Render.errorBanner v with
     | None, None => status st = idle
     | Some b, None =>
         status st = success /\ Render.text b = successMessage
     | None, Some b =>
         status st = error /\ Render.text b = failureMessage
     | Some _, Some _ => False
     end.
Proof.
  cbv zeta. destruct (run_coherent l initial initial_coherent) as [_ Hmsg].
  unfold Render.render.
  cbn [Render.disabled Render.label Render.successBanner Render.errorBanner].
  rewrite !decide_status.
  destruct (status (Session.run initial l)); try contradiction;
    cbn [Render.text];
    (split; [reflexivity|]); (split; [reflexivity|]);
    first [reflexivity | split; [reflexivity | exact Hmsg]].
Qed.

End ControllerCases.

(** ** Where the relay is laxer than the form *)

Module Agreement.
Import Js Regex Rules RelayFacts.

(** X22: the relay does not check the length of the message. For a POST
    whose name, subject and message are not empty and whose address passes
    the pattern, a message shorter than 10 code units once trimmed is not
    refused, and with a credential in the environment it is forwarded to the
    provider; the form holding the same values records the too-short text
    and is not submitted. *)
Theorem relay_forwards_short_messages
    (corsHeaders env : gmap jsstring jsstring)
    (fetch : jsstring -> Relay.Init.t -> option Relay.Fetched.t)
    (n e s m : jsstring) :
  n <> [] -> s <> [] ->
  truthy (trim m) = true ->
  jslength (trim m) < 10 ->
  test Relay.emailRegex e = true ->
  let b := Relay.EmailRequest.mk (Some n) (Some e) (Some s) (Some m) in
  let r := Relay.serve corsHeaders env fetch
             (Relay.Request.mk (str "POST") (Some b)) in
  let st := App.mkState (App.mkFormData n e s m) ∅ App.idle [] in
  Relay.Response.status r.1 <> 400
  /\ (truthy_opt (env !! str "RESEND_API_KEY") = true ->
      Relay.fetched r.2 = [(Relay.resendUrl, Relay.forwarded env b m)])
  /\ App.errors (App.after st (App.validateForm st)) !! App.Message
     = Some (Some App.messageTooShort)
  /\ (App.validateForm st (App.start st)).1 = false.
Proof.
  intros Hn Hs Hm Hshort He. cbv zeta.
  assert (Hc : Relay.complete
                 (Relay.EmailRequest.mk (Some n) (Some e) (Some s) (Some m))
               = true).
  { unfold Relay.complete.
    cbn [Relay.EmailRequest.name Relay.EmailRequest.email
         Relay.EmailRequest.subject Relay.EmailRequest.message truthy_opt].
    rewrite (SubmissionRelay.nonempty_truthy n Hn),
      (SubmissionRelay.nonempty_truthy s Hs), (JsFacts.trim_truthy m Hm),
      (email_truthy e He). reflexivity. }
  split; [apply (serve_accepted _ _ _ (Relay.Request.mk (str "POST") _) _
                   eq_refl eq_refl Hc He)|].
  split.
  { intros Hk.
    apply (serve_fetches _ _ _ (Relay.Request.mk (str "POST") _) _ m
             eq_refl eq_refl Hc He Hk eq_refl). }
  assert (Hviol : violation App.Message m = Some TooShortError).
  { unfold violation. rewrite Hm. cbn [negb].
    rewrite <- AppFacts.jslength_lt10.
    apply N.ltb_lt in Hshort. rewrite Hshort. reflexivity. }
  unfold App.after.
  destruct (AppFacts.validateForm_run
              (App.mkState (App.mkFormData n e s m) ∅ App.idle [])
              (App.start (App.mkState (App.mkFormData n e s m) ∅ App.idle [])))
    as (errs & -> & Herrs).
  cbn [fst snd App.store App.errors App.formData] in *. split.
  - rewrite Herrs. unfold prescribed. cbn [App.get App.message].
    rewrite Hviol. reflexivity.
  - destruct (size errs =? 0)%nat eqn:Hsize; [|reflexivity].
    apply (AppFacts.size_zero_valid _ errs Herrs) in Hsize.
    specialize (Hsize App.Message). cbn [App.get App.message] in Hsize.
    congruence.
Qed.

Lemma relay_forwards_short_messages_witness :
  Relay.Response.status
    (Relay.serve Samples.cors Samples.configured Samples.accepting
       (Relay.Request.mk (str "POST")
          (Some (Relay.EmailRequest.mk (Some (str "Kim"))
                   (Some (str "kim@example.com")) (Some (str "Hello"))
                   (Some (str "hi")))))).1 <> 400.
Proof.
  destruct (relay_forwards_short_messages Samples.cors Samples.configured
              Samples.accepting (str "Kim") (str "kim@example.com")
              (str "Hello") (str "hi")) as (H & _).
  - vm_compute. discriminate.
  - vm_compute. discriminate.
  - vm_compute. reflexivity.
  - vm_compute. reflexivity.
  - vm_compute. reflexivity.
  - exact H.
Defined.

End Agreement.
